(** * json_to_excel: the flattener, the sheet planner and the sheet names

    A shallow embedding of [flatten], [make_sheets_from_obj],
    [sanitize_sheet_name] and of the name loop of
    [write_excel_with_openpyxl] from [json_to_excel_AlpinAditya.py].

    Conventions.
    - A Python [str] is a [string]; each [ascii] stands for one code point
      below 256, so [String.length] is Python's [len].
    - A Python [dict] is an association list in insertion order
      ([dict_set] is [d[k] = v], [dict_update] is [d.update(e)]).
    - A parsed JSON document is a [json]; Python's [float] is kept abstract
      (type [float], printed by [float_repr]).
    - A cell of a row holds a Python value, that is a [json]: a value stored
      verbatim is itself, the output of [json.dumps] is a [JStr]. *)

From Stdlib Require Import List String Ascii ZArith NArith Arith Lia Bool.
From Stdlib Require Import DecimalString DecimalNat DecimalZ FinFun.
Import ListNotations.
Local Open Scope list_scope.
Local Open Scope string_scope.

(** ** Python dictionaries *)

Module Dict.

Definition dict (V : Type) : Type := list (string * V).

(** [d[k] = v]: an existing key keeps its place, a new key goes last. *)
Fixpoint dict_set {V} (d : dict V) (k : string) (v : V) : dict V :=
  match d with
  | [] => [(k, v)]
  | (k', v') :: d' =>
      if String.eqb k' k then (k', v) :: d'
      else (k', v') :: dict_set d' k v
  end.

(** [d.update(e)]. *)
Definition dict_update {V} (d e : dict V) : dict V :=
  fold_left (fun acc kv => dict_set acc (fst kv) (snd kv)) e d.

(** [d.get(k)]. *)
Fixpoint dict_get {V} (d : dict V) (k : string) : option V :=
  match d with
  | [] => None
  | (k', v') :: d' => if String.eqb k' k then Some v' else dict_get d' k
  end.

Definition keys {V} (d : dict V) : list string := map fst d.

(** Truth value of a dict: [if d:]. *)
Definition truthy {V} (d : dict V) : bool :=
  match d with [] => false | _ :: _ => true end.

End Dict.
Export Dict.

(** ** JSON values *)

Section Json.

Variable float : Type.

Local Set Warnings "-register-all".

Inductive json : Type :=
| JNull
| JBool (b : bool)
| JInt (z : Z)
| JFloat (f : float)
| JStr (s : string)
| JArr (l : list json)
| JObj (d : list (string * json)).

Definition is_dict (v : json) : bool :=
  match v with JObj _ => true | _ => false end.

Definition is_list (v : json) : bool :=
  match v with JArr _ => true | _ => false end.

Definition is_scalar (v : json) : bool :=
  match v with JArr _ | JObj _ => false | _ => true end.

End Json.

Arguments JNull {float}.
Arguments JBool {float} b.
Arguments JInt {float} z.
Arguments JFloat {float} f.
Arguments JStr {float} s.
Arguments JArr {float} l.
Arguments JObj {float} d.
Arguments is_dict {float} v.
Arguments is_list {float} v.
Arguments is_scalar {float} v.

(** ** [json.dumps(v, ensure_ascii=False)] *)

Module Dumps.

Definition quote : ascii := "034"%char.
Definition backslash : ascii := "092"%char.

Definition hex_digit (n : nat) : ascii :=
  if (n <? 10)%nat then ascii_of_nat (48 + n) else ascii_of_nat (87 + n).

(** The escape table of the encoder: the seven named escapes, then
    [\u00XX] for the other code points below 0x20; everything else is
    left as it is, since [ensure_ascii] is off. *)
Definition escape_char (c : ascii) : string :=
  let n := nat_of_ascii c in
  if Ascii.eqb c backslash then String backslash (String backslash "")
  else if Ascii.eqb c quote then String backslash (String quote "")
  else if (n =? 8)%nat then String backslash "b"
  else if (n =? 12)%nat then String backslash "f"
  else if (n =? 10)%nat then String backslash "n"
  else if (n =? 13)%nat then String backslash "r"
  else if (n =? 9)%nat then String backslash "t"
  else if (n <? 32)%nat then
    String backslash
      (String "u" (String "0" (String "0"
         (String (hex_digit (n / 16)) (String (hex_digit (n mod 16)) "")))))
  else String c "".

Fixpoint escape (s : string) : string :=
  match s with
  | EmptyString => EmptyString
  | String c s' => escape_char c ++ escape s'
  end.

Definition encode_basestring (s : string) : string :=
  String quote (escape s ++ String quote "").

(** [int.__repr__]. *)
Definition int_repr (z : Z) : string :=
  NilEmpty.string_of_int (Z.to_int z).

End Dumps.
Export Dumps.

Section Core.

Context {float : Type}.

(** [float.__repr__], not modelled. *)
Variable float_repr : float -> string.

#[local] Abbreviation json := (json float).

Fixpoint dumps (v : json) : string :=
  match v with
  | JNull => "null"
  | JBool true => "true"
  | JBool false => "false"
  | JInt z => int_repr z
  | JFloat f => float_repr f
  | JStr s => encode_basestring s
  | JArr l => "[" ++ String.concat ", " (map dumps l) ++ "]"
  | JObj d =>
      "{" ++ String.concat ", "
               (map (fun '(k, v) => encode_basestring k ++ ": " ++ dumps v) d)
          ++ "}"
  end.

(** A flat row and a sheet collection. *)
Definition row : Type := dict json.
Definition sheets : Type := dict (list row).

(** ** The flattener *)

(** [new_key = f"{parent_key}{sep}{k}" if parent_key else k] *)
Definition new_key (parent_key sep k : string) : string :=
  match parent_key with
  | EmptyString => k
  | _ => parent_key ++ sep ++ k
  end.

Fixpoint flatten (d : json) (parent_key sep : string) : row :=
  match d with
  | JObj kvs =>
      (fix loop (kvs : list (string * json)) (items : row) : row :=
         match kvs with
         | [] => items
         | (k, v) :: rest =>
             let nk := new_key parent_key sep k in
             loop rest
               match v with
               | JObj _ => dict_update items (flatten v nk sep)
               | JArr _ => dict_set items nk (JStr (dumps v))
               | _ => dict_set items nk v
               end
         end) kvs []
  | _ => dict_set [] parent_key d
  end.

(** The body of the loop of [flatten], named so that the loop reads as
    a fold (see [flatten_object]). *)
Definition flatten_item (parent_key sep : string) (items : row)
           (kv : string * json) : row :=
  let '(k, v) := kv in
  let nk := new_key parent_key sep k in
  match v with
  | JObj _ => dict_update items (flatten v nk sep)
  | JArr _ => dict_set items nk (JStr (dumps v))
  | _ => dict_set items nk v
  end.

(** ** The sheet planner *)

(** The top-level list branch: [rows.append(...)] for each item. *)
Definition list_rows (l : list json) : list row :=
  fold_left
    (fun rows item =>
       if is_dict item then (rows ++ [flatten item "" "."])%list
       else (rows ++ [dict_set [] "value" item])%list)
    l [].

(** One turn of the loop over [obj.items()]: the state is
    [(sheets, remaining)]. *)
Definition route_step (st : sheets * dict json) (kv : string * json)
  : sheets * dict json :=
  let '(sh, remaining) := st in
  let '(k, v) := kv in
  match v with
  | JArr l =>
      if forallb is_dict l
      then (dict_set sh k (map (fun i => flatten i "" ".") l), remaining)
      else (dict_set sh k
              (map (fun i => dict_set [] "value" (JStr (dumps i))) l),
            remaining)
  | _ => (sh, dict_set remaining k v)
  end.

Definition route (kvs : dict json) : sheets * dict json :=
  fold_left route_step kvs ([], []).

(** The object branch up to the fallback test: the sheets of the loop,
    then [Summary] when [remaining] is not empty. *)
Definition with_summary (kvs : dict json) : sheets :=
  let '(sh, remaining) := route kvs in
  if truthy remaining
  then dict_set sh "Summary" [flatten (JObj remaining) "" "."]
  else sh.

Definition make_sheets_from_obj (obj : json) : sheets :=
  match obj with
  | JArr l => dict_set [] "Sheet1" (list_rows l)
  | JObj kvs =>
      let sh := with_summary kvs in
      if negb (truthy sh)
      then dict_set sh "Sheet1" [flatten obj "" "."]
      else sh
  | _ => dict_set [] "Sheet1" [dict_set [] "value" (JStr (dumps obj))]
  end.

End Core.

Arguments row float : clear implicits.
Arguments sheets float : clear implicits.
Arguments flatten {float} float_repr d parent_key sep : simpl never.
Arguments flatten_item {float} float_repr parent_key sep items kv : simpl never.
Arguments dumps {float} float_repr v : simpl never.

(** ** Sheet names in the export layer *)

Module Names.

Definition invalid : list ascii :=
  [backslash; "/"; "*"; "?"; ":"; "["; "]"]%char.

Definition is_invalid (ch : ascii) : bool :=
  existsb (Ascii.eqb ch) invalid.

(** [''.join('_' if ch in invalid else ch for ch in str(name))] *)
Fixpoint replace_invalid (s : string) : string :=
  match s with
  | EmptyString => EmptyString
  | String ch s' =>
      String (if is_invalid ch then "_"%char else ch) (replace_invalid s')
  end.

(** The code points below 256 that [str.strip] removes. *)
Definition is_space (ch : ascii) : bool :=
  let n := nat_of_ascii ch in
  ((9 <=? n) && (n <=? 13) || (28 <=? n) && (n <=? 32)
   || (n =? 133) || (n =? 160))%nat.

Fixpoint lstrip (s : string) : string :=
  match s with
  | EmptyString => EmptyString
  | String ch s' => if is_space ch then lstrip s' else s
  end.

Fixpoint rstrip (s : string) : string :=
  match s with
  | EmptyString => EmptyString
  | String ch s' =>
      match rstrip s' with
      | EmptyString => if is_space ch then EmptyString else String ch ""
      | r => String ch r
      end
  end.

Definition strip (s : string) : string := rstrip (lstrip s).

Definition sanitize_sheet_name (name default : string) : string :=
  let s := strip (replace_invalid name) in
  let s := match s with EmptyString => default | _ => s end in
  substring 0 31 s.

(** [f"{i}"] for the counter of the name loop. *)
Definition nat_repr (i : nat) : string :=
  NilEmpty.string_of_uint (Nat.to_uint i).

(** [(base[:28] + f"_{i}") if len(base) > 28 else f"{base}_{i}"] *)
Definition suffixed (base : string) (i : nat) : string :=
  if (28 <? String.length base)%nat
  then substring 0 28 base ++ "_" ++ nat_repr i
  else base ++ "_" ++ nat_repr i.

Definition name_in (name : string) (sheetnames : list string) : bool :=
  existsb (String.eqb name) sheetnames.

(** [while name in wb.sheetnames: name = ...; i += 1], with [fuel]
    bounding the number of turns. *)
Fixpoint free_name (fuel : nat) (sheetnames : list string)
         (base name : string) (i : nat) : option string :=
  if name_in name sheetnames then
    match fuel with
    | O => None
    | S fuel' => free_name fuel' sheetnames base (suffixed base i) (S i)
    end
  else Some name.

(** The workbook as the name loop sees it: the titles of its sheets, in
    order, and the flag [first]. *)
Record workbook : Type := {
  sheetnames : list string;
  first : bool
}.

(** [Workbook()] holds one sheet; [active_title] is its title. *)
Definition Workbook (active_title : string) : workbook :=
  {| sheetnames := [active_title]; first := true |}.

(** One turn of [for raw_name, rows in sheets.items()], up to the
    creation of the sheet: the first name retitles the active sheet, the
    later ones create a sheet each. *)
Definition add_sheet (wb : workbook) (raw_name : string) : option workbook :=
  let name := sanitize_sheet_name raw_name "Sheet" in
  match free_name (S (List.length (sheetnames wb))) (sheetnames wb) name name 1 with
  | None => None
  | Some name' =>
      if first wb
      then Some {| sheetnames := [name']; first := false |}
      else Some {| sheetnames := (sheetnames wb ++ [name'])%list; first := false |}
  end.

Fixpoint add_sheets (wb : workbook) (raw_names : list string) : option workbook :=
  match raw_names with
  | [] => Some wb
  | raw_name :: rest =>
      match add_sheet wb raw_name with
      | None => None
      | Some wb' => add_sheets wb' rest
      end
  end.

(** The titles [write_excel_with_openpyxl] gives to the sheets. *)
Definition sheet_titles {V} (active_title : string) (sh : dict V)
  : option (list string) :=
  option_map sheetnames (add_sheets (Workbook active_title) (keys sh)).


End Names.
Export Names.

(** * Reference definitions

    The wording of the specification, to be compared with the code. *)

Section Reference.

Context {float : Type}.
Variable float_repr : float -> string.

#[local] Abbreviation json := (json float).

(** The key composition rule: [prefix + "." + key] when the prefix is
    not empty, else [key]. *)
Definition composed_key (prefix key : string) : string :=
  if String.eqb prefix "" then key else prefix ++ "." ++ key.

(** Merging a flat row into another: the cells of [r2] are written over
    [r1], the new keys after the keys of [r1]. *)
Definition merge (r1 r2 : row float) : row float := dict_update r1 r2.

(** The recursive reference definition of the flattener: the row of an
    object is the row its first pair contributes, merged with the row
    of the remaining pairs. *)
Fixpoint flatten_ref (v : json) (prefix : string) : row float :=
  match v with
  | JObj kvs =>
      (fix pairs (kvs : list (string * json)) : row float :=
         match kvs with
         | [] => []
         | (k, v') :: rest =>
             merge
               match v' with
               | JObj _ => flatten_ref v' (composed_key prefix k)
               | JArr _ =>
                   [(composed_key prefix k, JStr (dumps float_repr v'))]
               | _ => [(composed_key prefix k, v')]
               end
               (pairs rest)
         end) kvs
  | _ => [(prefix, v)]
  end.

(** What one pair contributes, and the row of a list of pairs. *)
Definition contribution (prefix : string) (kv : string * json) : row float :=
  let '(k, v') := kv in
  match v' with
  | JObj _ => flatten_ref v' (composed_key prefix k)
  | JArr _ => [(composed_key prefix k, JStr (dumps float_repr v'))]
  | _ => [(composed_key prefix k, v')]
  end.

Definition pairs_row (prefix : string) (kvs : dict json) : row float :=
  fold_right (fun kv acc => merge (contribution prefix kv) acc) [] kvs.

(** The row a top-level array gives for one element: an object is
    flattened, any other element is held verbatim under [value]. *)
Definition element_row (item : json) : row float :=
  match item with
  | JObj _ => flatten float_repr item "" "."
  | _ => [("value", item)]
  end.

(** The wrapping of an element of a mixed array as the specification
    words it: non-scalar elements serialized, scalars verbatim. *)
Definition wrap_as_specified (i : json) : row float :=
  [("value", if is_scalar i then i else JStr (dumps float_repr i))].

(** The wrapping as the code does it: every element serialized. *)
Definition wrap_serialized (i : json) : row float :=
  [("value", JStr (dumps float_repr i))].

(** The rows of the sheet of one array-valued key. *)
Definition array_rows (l : list json) : list (row float) :=
  if forallb is_dict l
  then map (fun i => flatten float_repr i "" ".") l
  else map wrap_serialized l.

(** One sheet per array-valued key, in the order of the keys. *)
Fixpoint array_sheets (kvs : dict json) : sheets float :=
  match kvs with
  | [] => []
  | (k, JArr l) :: rest => (k, array_rows l) :: array_sheets rest
  | _ :: rest => array_sheets rest
  end.

(** The remaining bucket: the pairs whose value is not an array. *)
Definition remaining_of (kvs : dict json) : dict json :=
  filter (fun kv => negb (is_list (snd kv))) kvs.

(** The fallback sheet collection: the whole object as one row. *)
Definition fallback (kvs : dict json) : sheets float :=
  [("Sheet1", [flatten float_repr (JObj kvs) "" "."])].

End Reference.

(** ** Documents used as examples *)

(** Documents without floats: [float] is the empty type. *)
Definition no_float : Type := Empty_set.

Definition no_float_repr (f : no_float) : string := match f with end.

Section Documents.

Context {float : Type}.

(** [{"tags": [1, "x", {"a": 1}]}] *)
Definition doc_tags : json float :=
  JObj [("tags", JArr [JInt 1; JStr "x"; JObj [("a", JInt 1)]])].

(** [{"name": "demo", "count": 3, "items": [{"x": 1}]}] *)
Definition doc_items : json float :=
  JObj [("name", JStr "demo"); ("count", JInt 3);
        ("items", JArr [JObj [("x", JInt 1)]])].

(** [{"a": 1, "b": 2}] *)
Definition doc_ab : json float :=
  JObj [("a", JInt 1); ("b", JInt 2)].

(** [{"Summary": [{"x": 1}], "name": "demo"}] *)
Definition doc_summary_key : json float :=
  JObj [("Summary", JArr [JObj [("x", JInt 1)]]); ("name", JStr "demo")].

(** [{"Summary": [], "a": 1}] *)
Definition doc_summary_empty : json float :=
  JObj [("Summary", JArr []); ("a", JInt 1)].

(** An object of 101 keys that agree on their first 31 characters, each
    with an empty array: [{"a...a0": [], "a...a1": [], ...}]. *)
Definition long_key (j : nat) : string :=
  "aaaaaaaaaaaaaaaaaaaaaaaaaaaaaaa" ++ nat_repr j.

Definition doc_long_keys : json float :=
  JObj (map (fun j => (long_key j, JArr [])) (seq 0 101)).

(** The pairs of an object. *)
Definition members (v : json float) : dict (json float) :=
  match v with
  | JObj d => d
  | _ => []
  end.

End Documents.

(** The number of array-valued keys of an object. *)
Definition count_array_keys {float} (kvs : dict (json float)) : nat :=
  List.length (filter (fun kv => is_list (snd kv)) kvs).

(** ** Headers and tables in the export layer *)

Section Tables.

Context {float : Type}.

#[local] Abbreviation json := (json float).

(** [if k not in headers: headers.append(k)] *)
Definition add_header (headers : list string) (k : string) : list string :=
  if name_in k headers then headers else (headers ++ [k])%list.

(** The header loop of [write_excel_with_openpyxl] and of
    [write_combined_csv_fallback]: over the rows, then over the keys of
    each row. *)
Definition collect_headers (rows : list (row float)) : list string :=
  fold_left (fun headers r => fold_left add_header (keys r) headers) rows [].

(** [r.get(h, "")] *)
Definition get_default (r : row float) (h : string) : json :=
  match dict_get r h with
  | Some v => v
  | None => JStr ""
  end.

(** [[r.get(h, "") for h in headers]] *)
Definition row_cells (headers : list string) (r : row float) : list json :=
  map (get_default r) headers.



(** One turn of the loop of [write_combined_csv_fallback]: the state is
    the list of the records given to [writer.writerow] so far and the flag
    [first_sheet]. *)
Definition csv_sheet (st : list (list json) * bool)
           (sheet : string * list (row float)) : list (list json) * bool :=
  let '(written, first_sheet) := st in
  let '(name, rows) := sheet in
  let written := if first_sheet then written else (written ++ [[]])%list in
  let written := (written ++ [[JStr ("Sheet: " ++ name)]])%list in
  match rows with
  | [] => (written, false)
  | _ =>
      let headers := collect_headers rows in
      let written := (written ++ [JStr "__sheet" :: map JStr headers])%list in
      (fold_left
         (fun w r => (w ++ [JStr name :: row_cells headers r])%list)
         rows written,
       false)
  end.

(** The records [write_combined_csv_fallback] writes, in order. *)
Definition write_combined_csv_fallback (sh : sheets float)
  : list (list json) :=
  fst (fold_left csv_sheet sh ([], true)).

(** The records of one sheet: its label, then its header and its rows
    when it has rows. *)
Definition csv_block (sheet : string * list (row float)) : list (list json) :=
  let '(name, rows) := sheet in
  match rows with
  | [] => [[JStr ("Sheet: " ++ name)]]
  | _ =>
      [JStr ("Sheet: " ++ name)]
        :: (JStr "__sheet" :: map JStr (collect_headers rows))
        :: map (fun r => JStr name :: row_cells (collect_headers rows) r) rows
  end.

(** Blocks with one empty record between two of them. *)
Fixpoint separated (blocks : list (list (list json))) : list (list json) :=
  match blocks with
  | [] => []
  | [b] => b
  | b :: rest => (b ++ [] :: separated rest)%list
  end.

End Tables.

(** ** Well-formed names, for the properties of [sanitize_sheet_name] *)

Definition chars (s : string) : list ascii := list_ascii_of_string s.

(** No character of [s] is one of the seven replaced ones. *)
Definition no_invalid (s : string) : Prop :=
  Forall (fun ch => is_invalid ch = false) (chars s).

(** [s] neither starts nor ends with a character [str.strip] removes. *)
Definition stripped (s : string) : Prop :=
  match chars s with
  | [] => True
  | ch :: _ => is_space ch = false /\ is_space (last (chars s) ch) = false
  end.

(** * Properties *)

(** ** Dictionaries *)

Section DictFacts.

Context {V : Type}.
Implicit Types (d e : dict V) (k : string) (v : V).

Lemma dict_set_not_nil d k v : dict_set d k v <> [].
Proof.
  destruct d as [|[k' v'] d]; simpl; [discriminate|].
  destruct (String.eqb k' k); discriminate.
Qed.

Lemma dict_set_fresh d k v :
  ~ In k (keys d) -> dict_set d k v = (d ++ [(k, v)])%list.
Proof.
  induction d as [|[k' v'] d IH]; simpl; intros Hk; [reflexivity|].
  destruct (String.eqb_spec k' k) as [->|_].
  - exfalso; apply Hk; now left.
  - rewrite IH; [reflexivity|]. intros Hin; apply Hk; now right.
Qed.

Lemma keys_dict_set_in d k v : In k (keys d) -> keys (dict_set d k v) = keys d.
Proof.
  induction d as [|[k' v'] d IH]; simpl; intros Hk; [contradiction|].
  destruct (String.eqb_spec k' k) as [->|Hne]; simpl; [reflexivity|].
  rewrite IH; [reflexivity|]. destruct Hk as [Hk|Hk]; [contradiction|exact Hk].
Qed.

Lemma keys_dict_set_fresh d k v :
  ~ In k (keys d) -> keys (dict_set d k v) = (keys d ++ [k])%list.
Proof.
  intros Hk. rewrite dict_set_fresh by exact Hk.
  unfold keys. rewrite map_app. reflexivity.
Qed.

Lemma in_keys_dict_set d k v k' :
  In k' (keys (dict_set d k v)) <-> k' = k \/ In k' (keys d).
Proof.
  destruct (in_dec string_dec k (keys d)) as [Hin|Hout].
  - rewrite keys_dict_set_in by exact Hin. split; [now right|].
    intros [->|H]; assumption.
  - rewrite keys_dict_set_fresh by exact Hout. rewrite in_app_iff; simpl.
    split; [intros [H|[H|[]]]|intros [H|H]]; auto.
Qed.

Lemma NoDup_keys_dict_set d k v :
  NoDup (keys d) -> NoDup (keys (dict_set d k v)).
Proof.
  intros Hd. destruct (in_dec string_dec k (keys d)) as [Hin|Hout].
  - now rewrite keys_dict_set_in.
  - rewrite keys_dict_set_fresh by exact Hout.
    apply NoDup_app; [exact Hd|repeat constructor; intros []|].
    intros x Hx [<-|[]]. contradiction.
Qed.

Lemma NoDup_keys_dict_update e : forall d,
  NoDup (keys d) -> NoDup (keys (dict_update d e)).
Proof.
  unfold dict_update.
  induction e as [|[k v] e IH]; simpl; intros d Hd; [exact Hd|].
  apply IH, NoDup_keys_dict_set, Hd.
Qed.

Lemma dict_get_set_same d k v : dict_get (dict_set d k v) k = Some v.
Proof.
  induction d as [|[k' v'] d IH]; simpl.
  - now rewrite String.eqb_refl.
  - destruct (String.eqb_spec k' k) as [->|Hne]; simpl.
    + now rewrite String.eqb_refl.
    + destruct (String.eqb_spec k' k); [contradiction|exact IH].
Qed.

Lemma dict_get_set_other d k v k' :
  k' <> k -> dict_get (dict_set d k v) k' = dict_get d k'.
Proof.
  intros Hne. induction d as [|[k0 v0] d IH]; simpl.
  - destruct (String.eqb_spec k k'); [congruence|reflexivity].
  - destruct (String.eqb_spec k0 k) as [->|Hk0]; simpl.
    + destruct (String.eqb_spec k k'); [congruence|reflexivity].
    + now rewrite IH.
Qed.

Lemma dict_get_in d k v :
  NoDup (keys d) -> In (k, v) d -> dict_get d k = Some v.
Proof.
  induction d as [|[k0 v0] d IH]; simpl; intros Hnd Hin; [contradiction|].
  inversion Hnd as [|? ? Hout Hnd']; subst.
  destruct Hin as [Heq|Hin].
  - inversion Heq; subst. now rewrite String.eqb_refl.
  - destruct (String.eqb_spec k0 k) as [->|_]; [|now apply IH].
    exfalso; apply Hout. change k with (fst (k, v)). now apply in_map.
Qed.

Lemma dict_get_none d k : ~ In k (keys d) <-> dict_get d k = None.
Proof.
  induction d as [|[k0 v0] d IH]; simpl; [tauto|].
  destruct (String.eqb_spec k0 k) as [->|Hne].
  - split; [intros H; exfalso; apply H; now left|discriminate].
  - rewrite <- IH. tauto.
Qed.

End DictFacts.

(** ** The planner on arrays and scalars, and the flattener off objects *)

Section PlannerBasics.

Context {float : Type}.
Variable float_repr : float -> string.

#[local] Abbreviation json := (json float).
#[local] Abbreviation flatten := (flatten float_repr).
#[local] Abbreviation dumps := (dumps float_repr).
#[local] Abbreviation make_sheets_from_obj := (make_sheets_from_obj float_repr).

Lemma list_rows_acc (l : list json) : forall acc,
  fold_left
    (fun rows item =>
       if is_dict item then (rows ++ [flatten item "" "."])%list
       else (rows ++ [dict_set [] "value" item])%list)
    l acc
  = (acc ++ map (element_row float_repr) l)%list.
Proof.
  induction l as [|item l IH]; intros acc; simpl.
  - now rewrite app_nil_r.
  - rewrite IH. destruct item; simpl; now rewrite <- app_assoc.
Qed.

(** C8: off objects, [flatten v p] is the one-entry row [{p: v}]. *)
Theorem flatten_non_object (v : json) (p sep : string) :
  is_dict v = false -> flatten v p sep = [(p, v)].
Proof.
  destruct v; simpl; intros H; try reflexivity; discriminate.
Qed.

(** C4: a top-level array gives the single sheet [Sheet1], one row per
    element in order: an object flattened, any other element verbatim
    under [value]. *)
Theorem top_level_array_one_sheet (l : list json) :
  make_sheets_from_obj (JArr l)
  = [("Sheet1", map (element_row float_repr) l)]
  /\ (forall n item, nth_error l n = Some item ->
      exists r,
        dict_get (make_sheets_from_obj (JArr l)) "Sheet1" = Some r
        /\ List.length r = List.length l
        /\ nth_error r n
           = Some (if is_dict item then flatten item "" "."
                   else [("value", item)])).
Proof.
  assert (E : make_sheets_from_obj (JArr l)
              = [("Sheet1", map (element_row float_repr) l)]).
  { simpl. unfold list_rows. now rewrite list_rows_acc. }
  split; [exact E|].
  intros n item Hn. rewrite E. simpl.
  exists (map (element_row float_repr) l). split; [reflexivity|].
  split; [apply length_map|].
  rewrite nth_error_map, Hn. simpl. now destruct item.
Qed.

(** C7: a top-level scalar gives the single sheet [Sheet1] with the
    single row [{value: json.dumps(scalar)}]; the string hello is held
    as hello between two quotes, seven characters. *)
Theorem top_level_scalar_one_cell (obj : json) :
  is_scalar obj = true ->
  make_sheets_from_obj obj = [("Sheet1", [[("value", JStr (dumps obj))]])]
  /\ dumps (JStr "hello") = String quote ("hello" ++ String quote "")
  /\ String.length (dumps (JStr "hello")) = 7.
Proof.
  intros H. split; [|split; reflexivity].
  destruct obj; simpl in *; try reflexivity; discriminate.
Qed.

(** C3: the planner returns a sheet collection for every JSON value,
    and the collection is never empty. *)
Theorem make_sheets_total_nonempty (obj : json) :
  exists name rows rest, make_sheets_from_obj obj = (name, rows) :: rest.
Proof.
  assert (H : make_sheets_from_obj obj <> []).
  { destruct obj; simpl; try discriminate.
    destruct (with_summary float_repr d) as [|s0 sh]; simpl;
      discriminate. }
  destruct (make_sheets_from_obj obj) as [|[name rows] rest];
    [contradiction|eauto].
Qed.

End PlannerBasics.

(** ** The planner on objects *)

Section PlannerObjects.

Context {float : Type}.
Variable float_repr : float -> string.

#[local] Abbreviation json := (json float).
#[local] Abbreviation flatten := (flatten float_repr).
#[local] Abbreviation dumps := (dumps float_repr).
#[local] Abbreviation make_sheets_from_obj := (make_sheets_from_obj float_repr).
#[local] Abbreviation array_sheets := (array_sheets float_repr).
#[local] Abbreviation array_rows := (array_rows float_repr).

Lemma make_sheets_object (kvs : dict json) :
  make_sheets_from_obj (JObj kvs)
  = if negb (truthy (with_summary float_repr kvs))
    then dict_set (with_summary float_repr kvs) "Sheet1"
           [flatten (JObj kvs) "" "."]
    else with_summary float_repr kvs.
Proof. reflexivity. Qed.

Lemma route_step_array sh remaining k l :
  route_step float_repr (sh, remaining) (k, JArr l)
  = (dict_set sh k (array_rows l), remaining).
Proof.
  unfold route_step, array_rows.
  now destruct (forallb is_dict l).
Qed.

Lemma route_step_other sh remaining k v :
  is_list v = false ->
  route_step float_repr (sh, remaining) (k, v)
  = (sh, dict_set remaining k v).
Proof. destruct v; simpl; intros H; try reflexivity; discriminate. Qed.

(** On distinct keys the loop appends: a sheet per array-valued key, the
    other pairs to the remaining bucket. *)
Lemma route_acc (kvs : dict json) : forall sh remaining,
  NoDup (keys kvs) ->
  (forall k, In k (keys kvs) ->
             ~ In k (keys sh) /\ ~ In k (keys remaining)) ->
  fold_left (route_step float_repr) kvs (sh, remaining)
  = ((sh ++ array_sheets kvs)%list, (remaining ++ remaining_of kvs)%list).
Proof.
  induction kvs as [|[k v] kvs IH]; intros sh remaining Hnd Hfresh.
  - simpl. now rewrite !app_nil_r.
  - simpl in Hnd. inversion Hnd as [|? ? Hk Hnd']; subst.
    destruct (Hfresh k (or_introl eq_refl)) as [Hsh Hrem].
    cbn [fold_left].
    destruct (is_list v) eqn:Hv.
    + destruct v; try discriminate.
      rewrite route_step_array, dict_set_fresh by exact Hsh.
      rewrite IH; [|exact Hnd'|].
      * simpl. now rewrite <- app_assoc.
      * intros k' Hk'. destruct (Hfresh k' (or_intror Hk')) as [H1 H2].
        split; [|exact H2].
        unfold keys. rewrite map_app, in_app_iff. simpl.
        intros [H|[H|[]]]; [now apply H1|congruence].
    + rewrite route_step_other, dict_set_fresh by assumption.
      rewrite IH; [|exact Hnd'|].
      * unfold remaining_of. simpl. rewrite Hv. simpl.
        rewrite <- app_assoc. simpl.
        now destruct v; try discriminate.
      * intros k' Hk'. destruct (Hfresh k' (or_intror Hk')) as [H1 H2].
        split; [exact H1|].
        unfold keys. rewrite map_app, in_app_iff. simpl.
        intros [H|[H|[]]]; [now apply H2|congruence].
Qed.

Lemma route_distinct (kvs : dict json) :
  NoDup (keys kvs) ->
  route float_repr kvs = (array_sheets kvs, remaining_of kvs).
Proof.
  intros Hnd. unfold route. rewrite route_acc; auto.
Qed.

Lemma with_summary_distinct (kvs : dict json) :
  NoDup (keys kvs) ->
  with_summary float_repr kvs
  = if truthy (remaining_of kvs)
    then dict_set (array_sheets kvs) "Summary"
           [flatten (JObj (remaining_of kvs)) "" "."]
    else array_sheets kvs.
Proof.
  intros Hnd. unfold with_summary. now rewrite route_distinct.
Qed.

Lemma in_keys_array_sheets (kvs : dict json) k :
  In k (keys (array_sheets kvs)) -> In k (keys kvs).
Proof.
  induction kvs as [|[k0 v0] kvs IH]; simpl; [tauto|].
  destruct v0; simpl; intros H; try (right; now apply IH).
  destruct H as [H|H]; [now left|right; now apply IH].
Qed.

Lemma dict_get_array_sheets (kvs : dict json) k l :
  NoDup (keys kvs) -> In (k, JArr l) kvs ->
  dict_get (array_sheets kvs) k = Some (array_rows l).
Proof.
  induction kvs as [|[k0 v0] kvs IH]; simpl; intros Hnd Hin; [contradiction|].
  inversion Hnd as [|? ? Hk0 Hnd']; subst.
  destruct Hin as [Heq|Hin].
  - inversion Heq; subst. simpl. now rewrite String.eqb_refl.
  - assert (Hne : k0 <> k).
    { intros ->. apply Hk0. change k with (fst (k, JArr l)).
      now apply in_map. }
    destruct v0; simpl; try now apply IH.
    destruct (String.eqb_spec k0 k); [contradiction|now apply IH].
Qed.

Lemma in_keys_remaining_of (kvs : dict json) k l :
  NoDup (keys kvs) -> In (k, JArr l) kvs -> ~ In k (keys (remaining_of kvs)).
Proof.
  intros Hnd Hin Hk. unfold keys, remaining_of in Hk.
  apply in_map_iff in Hk. destruct Hk as [[k' v'] [Hfst Hf]].
  simpl in Hfst; subst k'. apply filter_In in Hf. destruct Hf as [Hin' Hv'].
  pose proof (dict_get_in kvs k _ Hnd Hin) as E1.
  pose proof (dict_get_in kvs k _ Hnd Hin') as E2.
  rewrite E1 in E2. inversion E2; subst. discriminate.
Qed.

(** The sheet of an array-valued key other than [Summary] is the one
    the loop made for it. *)
Lemma array_key_sheet (kvs : dict json) k l :
  NoDup (keys kvs) -> In (k, JArr l) kvs -> k <> "Summary" ->
  dict_get (make_sheets_from_obj (JObj kvs)) k = Some (array_rows l).
Proof.
  intros Hnd Hin Hk.
  assert (Hws : dict_get (with_summary float_repr kvs) k
                = Some (array_rows l)).
  { rewrite with_summary_distinct by exact Hnd.
    destruct (truthy (remaining_of kvs)).
    - rewrite dict_get_set_other by exact Hk.
      now apply dict_get_array_sheets.
    - now apply dict_get_array_sheets. }
  rewrite make_sheets_object.
  destruct (with_summary float_repr kvs) as [|s0 sh]; [discriminate|].
  exact Hws.
Qed.

(** C1, amended: for a key [k] other than [Summary] whose array is not
    made of objects only, the sheet [k] holds one row per element, each
    the single cell [value] with the JSON text of the element, scalar or
    not. *)
Theorem mixed_array_rows_serialized (kvs : dict json) k l :
  NoDup (keys kvs) ->
  In (k, JArr l) kvs ->
  forallb is_dict l = false ->
  k <> "Summary" ->
  dict_get (make_sheets_from_obj (JObj kvs)) k
  = Some (map (fun i => [("value", JStr (dumps i))]) l).
Proof.
  intros Hnd Hin Hmixed Hk.
  rewrite (array_key_sheet kvs k l Hnd Hin Hk).
  unfold array_rows. now rewrite Hmixed.
Qed.

(** When no array-valued key is named [Summary], the summary sheet comes
    after the sheets of the array-valued keys and leaves them as they
    are. *)
Lemma summary_is_appended (kvs : dict json) :
  NoDup (keys kvs) ->
  remaining_of kvs <> [] ->
  ~ In "Summary" (keys (array_sheets kvs)) ->
  make_sheets_from_obj (JObj kvs)
  = (array_sheets kvs
     ++ [("Summary", [flatten (JObj (remaining_of kvs)) "" "."])])%list.
Proof.
  intros Hnd Hrem Hfree.
  rewrite make_sheets_object.
  rewrite with_summary_distinct by exact Hnd.
  destruct (remaining_of kvs) as [|kv rem] eqn:E; [contradiction|].
  cbn [truthy]. rewrite dict_set_fresh by exact Hfree.
  destruct (array_sheets kvs); reflexivity.
Qed.

(** A key whose array is empty, other than [Summary], has a sheet of no
    rows and is not in the remaining bucket. *)
Lemma empty_array_key_sheet (kvs : dict json) k :
  NoDup (keys kvs) -> In (k, JArr []) kvs -> k <> "Summary" ->
  dict_get (make_sheets_from_obj (JObj kvs)) k = Some []
  /\ ~ In k (keys (snd (route float_repr kvs))).
Proof.
  intros Hnd Hin Hk. split.
  - now rewrite (array_key_sheet kvs k [] Hnd Hin Hk).
  - rewrite route_distinct by exact Hnd. simpl.
    now apply in_keys_remaining_of with (l := []).
Qed.

End PlannerObjects.

(** ** Merging dictionaries *)

Section DictMerge.

Context {V : Type}.
Implicit Types (a b c d e : dict V) (k : string) (v : V).

Lemma dict_update_cons d k v e :
  dict_update d ((k, v) :: e) = dict_update (dict_set d k v) e.
Proof. reflexivity. Qed.

Lemma dict_set_set d k v v' :
  dict_set (dict_set d k v') k v = dict_set d k v.
Proof.
  induction d as [|[k0 v0] d IH]; simpl.
  - now rewrite String.eqb_refl.
  - destruct (String.eqb_spec k0 k) as [->|Hne]; simpl.
    + now rewrite String.eqb_refl.
    + destruct (String.eqb_spec k0 k); [contradiction|now rewrite IH].
Qed.

(** Two writes commute when the first key is already there. *)
Lemma dict_set_comm d k v k1 v1 :
  k <> k1 -> In k (keys d) ->
  dict_set (dict_set d k1 v1) k v = dict_set (dict_set d k v) k1 v1.
Proof.
  intros Hne. induction d as [|[k0 v0] d IH]; simpl; intros Hin;
    [contradiction|].
  destruct (String.eqb k0 k1) eqn:E1, (String.eqb k0 k) eqn:E0;
    simpl; rewrite ?E1, ?E0; try reflexivity.
  - apply String.eqb_eq in E1, E0. congruence.
  - rewrite IH; [reflexivity|].
    destruct Hin as [H|H]; [|exact H].
    apply String.eqb_neq in E0. contradiction.
Qed.

Lemma dict_set_update_comm e : forall d k v,
  In k (keys d) -> ~ In k (keys e) ->
  dict_set (dict_update d e) k v = dict_update (dict_set d k v) e.
Proof.
  induction e as [|[k1 v1] e IH]; intros d k v Hin Hout; [reflexivity|].
  rewrite !dict_update_cons.
  assert (Hne : k <> k1) by (intros ->; apply Hout; now left).
  rewrite IH.
  - now rewrite dict_set_comm.
  - apply in_keys_dict_set. now right.
  - intros H; apply Hout; now right.
Qed.

(** Updating with a dictionary written at [k] is updating, then writing
    at [k]. *)
Lemma dict_update_set b : forall a k v,
  NoDup (keys b) ->
  dict_update a (dict_set b k v) = dict_set (dict_update a b) k v.
Proof.
  induction b as [|[k0 v0] b IH]; intros a k v Hnd; [reflexivity|].
  simpl in Hnd. inversion Hnd as [|? ? Hk0 Hnd']; subst.
  simpl. destruct (String.eqb_spec k0 k) as [->|Hne].
  - rewrite !dict_update_cons.
    rewrite dict_set_update_comm.
    + now rewrite dict_set_set.
    + apply in_keys_dict_set. now left.
    + exact Hk0.
  - rewrite !dict_update_cons. now apply IH.
Qed.

Lemma dict_update_assoc c : forall a b,
  NoDup (keys b) ->
  dict_update a (dict_update b c) = dict_update (dict_update a b) c.
Proof.
  induction c as [|[k v] c IH]; intros a b Hnd; [reflexivity|].
  rewrite !dict_update_cons.
  rewrite IH by now apply NoDup_keys_dict_set.
  now rewrite dict_update_set.
Qed.

Lemma dict_update_fresh e : forall d,
  NoDup (keys e) -> (forall k, In k (keys e) -> ~ In k (keys d)) ->
  dict_update d e = (d ++ e)%list.
Proof.
  induction e as [|[k v] e IH]; intros d Hnd Hfresh.
  - simpl. now rewrite app_nil_r.
  - simpl in Hnd. inversion Hnd as [|? ? Hk Hnd']; subst.
    rewrite dict_update_cons, dict_set_fresh by (apply Hfresh; now left).
    rewrite IH; [now rewrite <- app_assoc|exact Hnd'|].
    intros k' Hk'. unfold keys. rewrite map_app, in_app_iff. simpl.
    intros [H|[H|[]]]; [|congruence].
    apply (Hfresh k'); [now right|exact H].
Qed.

Lemma dict_update_nil_l e : NoDup (keys e) -> dict_update [] e = e.
Proof. intros Hnd. rewrite dict_update_fresh; auto. Qed.

Lemma in_dict_set d k v (x : string * V) :
  In x (dict_set d k v) -> x = (k, v) \/ In x d.
Proof.
  induction d as [|[k0 v0] d IH]; simpl.
  - intros [H|[]]; now left.
  - destruct (String.eqb_spec k0 k) as [->|Hne]; simpl.
    + intros [H|H]; [now left|right; now right].
    + intros [H|H]; [right; now left|].
      destruct (IH H) as [H'|H']; [now left|right; now right].
Qed.

Lemma in_dict_update e : forall d (x : string * V),
  In x (dict_update d e) -> In x d \/ In x e.
Proof.
  induction e as [|[k v] e IH]; intros d x; [now left|].
  rewrite dict_update_cons. intros H.
  destruct (IH _ _ H) as [H'|H']; [|right; now right].
  destruct (in_dict_set _ _ _ _ H') as [->|H'']; [right; now left|now left].
Qed.

End DictMerge.

(** ** The flattener on objects *)

Section JsonInduction.

Context {float : Type}.
Variable P : json float -> Prop.
Hypothesis HNull : P JNull.
Hypothesis HBool : forall b, P (JBool b).
Hypothesis HInt : forall z, P (JInt z).
Hypothesis HFloat : forall f, P (JFloat f).
Hypothesis HStr : forall s, P (JStr s).
Hypothesis HArr : forall l, Forall P l -> P (JArr l).
Hypothesis HObj : forall d, Forall (fun kv => P (snd kv)) d -> P (JObj d).

(** Induction on a JSON value, with the hypothesis on every element of an
    array and every value of an object. *)
Lemma json_nested_ind : forall v, P v.
Proof.
  fix IH 1. intros [| b | z | f | s | l | d].
  - exact HNull.
  - apply HBool.
  - apply HInt.
  - apply HFloat.
  - apply HStr.
  - apply HArr. induction l as [|x l IHl]; constructor; [apply IH|exact IHl].
  - apply HObj. induction d as [|[k x] d IHd]; constructor;
      [apply IH|exact IHd].
Qed.

End JsonInduction.

Section Flattener.

Context {float : Type}.
Variable float_repr : float -> string.

#[local] Abbreviation json := (json float).
#[local] Abbreviation flatten := (flatten float_repr).
#[local] Abbreviation dumps := (dumps float_repr).
#[local] Abbreviation flatten_item := (flatten_item float_repr).
#[local] Abbreviation flatten_ref := (flatten_ref float_repr).
#[local] Abbreviation contribution := (contribution float_repr).
#[local] Abbreviation pairs_row := (pairs_row float_repr).

(** The loop of [flatten] is a left fold of its body. *)
Lemma flatten_object (kvs : dict json) p sep :
  flatten (JObj kvs) p sep = fold_left (flatten_item p sep) kvs [].
Proof.
  unfold flatten. cbv beta iota fix.
  match goal with
  | |- ?loop kvs [] = _ =>
      enough (H : forall items,
                 loop kvs items = fold_left (flatten_item p sep) kvs items)
        by apply H
  end.
  induction kvs as [|[k v] kvs IH]; intros items; [reflexivity|].
  cbn [fold_left]. rewrite <- IH. reflexivity.
Qed.

Lemma flatten_ref_object (kvs : dict json) p :
  flatten_ref (JObj kvs) p = pairs_row p kvs.
Proof.
  unfold flatten_ref, pairs_row. cbv beta iota fix.
  induction kvs as [|[k v] kvs IH]; [reflexivity|].
  cbn [fold_right]. rewrite <- IH. reflexivity.
Qed.

Lemma NoDup_keys_flatten_item p sep items kv :
  NoDup (keys items) -> NoDup (keys (flatten_item p sep items kv)).
Proof.
  intros H. destruct kv as [k v]. unfold flatten_item.
  destruct v; try now apply NoDup_keys_dict_set.
  now apply NoDup_keys_dict_update.
Qed.

(** The keys of a flat row are distinct. *)
Lemma NoDup_keys_flatten (v : json) p sep : NoDup (keys (flatten v p sep)).
Proof.
  destruct v; try (repeat constructor; intros []).
  rewrite flatten_object.
  assert (H : forall items, NoDup (keys items) ->
              NoDup (keys (fold_left (flatten_item p sep) d items))).
  { induction d as [|kv d IH]; intros items Hi; [exact Hi|].
    cbn [fold_left]. now apply IH, NoDup_keys_flatten_item. }
  apply H. constructor.
Qed.

Lemma new_key_composed p k : new_key p "." k = composed_key p k.
Proof. now destruct p. Qed.

(** What the body of the loop does with one pair is a merge of the
    row the pair contributes, once the nested objects agree. *)
Lemma flatten_item_merge p items k v :
  (forall q, flatten v q "." = flatten_ref v q) ->
  flatten_item p "." items (k, v)
  = merge items (contribution p (k, v))
  /\ NoDup (keys (contribution p (k, v))).
Proof.
  intros Hv. unfold flatten_item, contribution, merge.
  rewrite new_key_composed.
  destruct v; try (split; [reflexivity|repeat constructor; intros []]).
  rewrite <- Hv. split; [reflexivity|apply NoDup_keys_flatten].
Qed.

Lemma NoDup_keys_pairs_row p (kvs : dict json) :
  Forall (fun kv => forall q, flatten (snd kv) q "." = flatten_ref (snd kv) q)
    kvs ->
  NoDup (keys (pairs_row p kvs)).
Proof.
  induction 1 as [|[k v] kvs Hv _ IH]; [constructor|].
  unfold pairs_row. cbn [fold_right]. unfold merge at 1.
  apply NoDup_keys_dict_update.
  now apply (flatten_item_merge p [] k v).
Qed.

Lemma flatten_loop_merge p (kvs : dict json) :
  Forall (fun kv => forall q, flatten (snd kv) q "." = flatten_ref (snd kv) q)
    kvs ->
  forall items,
    fold_left (flatten_item p ".") kvs items = merge items (pairs_row p kvs).
Proof.
  induction 1 as [|[k v] kvs Hv _ IH]; intros items; [reflexivity|].
  cbn [fold_left]. rewrite IH.
  destruct (flatten_item_merge p items k v Hv) as [-> Hnd].
  unfold pairs_row. cbn [fold_right]. unfold merge.
  now rewrite dict_update_assoc.
Qed.

Lemma flatten_agrees_with_reference (v : json) :
  forall p, flatten v p "." = flatten_ref v p.
Proof.
  induction v as [| | | | | |d Hd] using json_nested_ind;
    try reflexivity.
  intros p.
  rewrite flatten_object, flatten_ref_object, flatten_loop_merge by exact Hd.
  unfold merge. apply dict_update_nil_l.
  now apply NoDup_keys_pairs_row.
Qed.

(** C6: on every object the flattener is the recursive reference
    definition: keys composed with the prefix and a dot, nested objects
    flattened and merged, arrays kept as their JSON text, scalars as
    they are. *)
Theorem flatten_refines_reference (kvs : dict json) (p : string) :
  flatten (JObj kvs) p "." = flatten_ref (JObj kvs) p.
Proof. apply flatten_agrees_with_reference. Qed.

End Flattener.

(** ** The size of the JSON text *)

Section TextSize.

Lemma length_append (a b : string) :
  String.length (a ++ b) = String.length a + String.length b.
Proof. induction a as [|c a IH]; simpl; [reflexivity|now rewrite IH]. Qed.

Lemma escape_char_length (c : ascii) : 1 <= String.length (escape_char c).
Proof.
  unfold escape_char.
  repeat match goal with
         | |- context [if ?b then _ else _] => destruct b
         end; simpl; lia.
Qed.

Lemma escape_length (s : string) :
  String.length s <= String.length (escape s).
Proof.
  induction s as [|c s IH]; simpl; [lia|].
  rewrite length_append. pose proof (escape_char_length c). lia.
Qed.

Lemma encode_basestring_length (s : string) :
  String.length s + 2 <= String.length (encode_basestring s).
Proof.
  unfold encode_basestring. simpl. rewrite length_append. simpl.
  pose proof (escape_length s). lia.
Qed.

Lemma concat_member_length (sep x : string) (l : list string) :
  In x l -> String.length x <= String.length (String.concat sep l).
Proof.
  induction l as [|y l IH]; simpl; [contradiction|].
  intros [->|Hin].
  - destruct l; [lia|]. rewrite length_append. lia.
  - destruct l as [|z l]; [contradiction|].
    rewrite !length_append. specialize (IH Hin). lia.
Qed.

Context {float : Type}.
Variable float_repr : float -> string.

#[local] Abbreviation json := (json float).
#[local] Abbreviation flatten := (flatten float_repr).
#[local] Abbreviation dumps := (dumps float_repr).
#[local] Abbreviation flatten_item := (flatten_item float_repr).

Lemma dumps_array (l : list json) :
  dumps (JArr l) = "[" ++ String.concat ", " (map dumps l) ++ "]".
Proof. reflexivity. Qed.

Lemma dumps_object (d : dict json) :
  dumps (JObj d)
  = "{" ++ String.concat ", "
             (map (fun '(k, v) => encode_basestring k ++ ": " ++ dumps v) d)
        ++ "}".
Proof. reflexivity. Qed.

Lemma dumps_singleton_array_length (x : json) :
  String.length (dumps (JArr [x])) = String.length (dumps x) + 2.
Proof.
  rewrite dumps_array. simpl. rewrite length_append. simpl. lia.
Qed.

Lemma dumps_value_length (d : dict json) k v :
  In (k, v) d -> String.length (dumps v) <= String.length (dumps (JObj d)).
Proof.
  intros Hin. rewrite dumps_object, !length_append.
  pose proof (concat_member_length ", "
                (encode_basestring k ++ ": " ++ dumps v)
                (map (fun '(k, v) => encode_basestring k ++ ": " ++ dumps v) d))
    as H.
  rewrite !length_append in H.
  assert (Hmem : In (encode_basestring k ++ ": " ++ dumps v)
                   (map (fun '(k, v) =>
                           encode_basestring k ++ ": " ++ dumps v) d)).
  { apply in_map_iff. exists (k, v). now split. }
  specialize (H Hmem). lia.
Qed.

(** Where a cell of the loop of [flatten] comes from. *)
Lemma in_flatten_item p sep items k v (x : string * json) :
  In x (flatten_item p sep items (k, v)) ->
  In x items
  \/ (is_dict v = true /\ In x (flatten v (new_key p sep k) sep))
  \/ (is_list v = true /\ x = (new_key p sep k, JStr (dumps v)))
  \/ (is_dict v = false /\ is_list v = false /\ x = (new_key p sep k, v)).
Proof.
  unfold flatten_item.
  destruct v; intros H;
    try (apply in_dict_set in H; destruct H as [->|H];
         [right; right; simpl; auto|now left]).
  apply in_dict_update in H. destruct H as [H|H]; [now left|].
  right; left. now split.
Qed.

Lemma in_flatten_loop p sep (d : dict json) (x : string * json) :
  forall items,
    In x (fold_left (flatten_item p sep) d items) ->
    In x items
    \/ exists k v,
         In (k, v) d
         /\ ((is_dict v = true /\ In x (flatten v (new_key p sep k) sep))
             \/ (is_list v = true /\ x = (new_key p sep k, JStr (dumps v)))
             \/ (is_dict v = false /\ is_list v = false
                 /\ x = (new_key p sep k, v))).
Proof.
  induction d as [|[k v] d IH]; intros items H; [now left|].
  cbn [fold_left] in H. apply IH in H. destruct H as [H|H].
  - apply in_flatten_item in H. destruct H as [H|H]; [now left|].
    right. exists k, v. split; [now left|exact H].
  - right. destruct H as (k' & v' & Hin & H).
    exists k', v'. split; [now right|exact H].
Qed.

(** A string cell of a flat row is never longer than the JSON text of
    the flattened value. *)
Lemma cell_text_bound (v : json) :
  forall p sep k s,
    In (k, JStr s) (flatten v p sep) ->
    String.length s <= String.length (dumps v).
Proof.
  induction v as [|b|z|f|s0|l Hl|d Hd] using json_nested_ind;
    intros p sep k s Hin;
    try (destruct Hin as [Hin|[]]; discriminate).
  - destruct Hin as [Hin|[]]. inversion Hin; subst.
    pose proof (encode_basestring_length s). change (dumps (JStr s))
      with (encode_basestring s). lia.
  - rewrite flatten_object in Hin. apply in_flatten_loop in Hin.
    destruct Hin as [[]|(k0 & v0 & Hmem & Hcase)].
    pose proof (dumps_value_length d k0 v0 Hmem) as Hle.
    destruct Hcase as [[_ Hc]|[[_ Hc]|(_ & _ & Hc)]].
    + rewrite Forall_forall in Hd. specialize (Hd _ Hmem). simpl in Hd.
      specialize (Hd _ _ _ _ Hc). lia.
    + inversion Hc; subst. exact Hle.
    + inversion Hc; subst.
      pose proof (encode_basestring_length s).
      change (dumps (JStr s)) with (encode_basestring s) in Hle. lia.
Qed.

End TextSize.

(** ** The fallback sheet *)

Section PlannerFallback.

Context {float : Type}.
Variable float_repr : float -> string.

#[local] Abbreviation json := (json float).
#[local] Abbreviation flatten := (flatten float_repr).
#[local] Abbreviation dumps := (dumps float_repr).
#[local] Abbreviation make_sheets_from_obj := (make_sheets_from_obj float_repr).
#[local] Abbreviation with_summary := (with_summary float_repr).
#[local] Abbreviation array_sheets := (array_sheets float_repr).
#[local] Abbreviation array_rows := (array_rows float_repr).
#[local] Abbreviation fallback := (fallback float_repr).

Lemma count_array_keys_zero (kvs : dict json) :
  count_array_keys kvs = 0 <-> array_sheets kvs = [].
Proof.
  unfold count_array_keys.
  induction kvs as [|[k v] kvs IH]; simpl; [tauto|].
  destruct v; simpl; try exact IH.
  split; discriminate.
Qed.

Lemma no_pairs_iff (kvs : dict json) :
  array_sheets kvs = [] /\ remaining_of kvs = [] <-> kvs = [].
Proof.
  split; [|intros ->; now split].
  destruct kvs as [|[k v] kvs]; [reflexivity|].
  intros [Ha Hr]. destruct v; simpl in *; discriminate.
Qed.

Lemma with_summary_nil_iff (kvs : dict json) :
  NoDup (keys kvs) ->
  with_summary kvs = [] <-> array_sheets kvs = [] /\ remaining_of kvs = [].
Proof.
  intros Hnd. rewrite with_summary_distinct by exact Hnd.
  destruct (remaining_of kvs) as [|kv rem]; simpl.
  - tauto.
  - split; [|intros [_ H]; discriminate].
    intros H. now apply dict_set_not_nil in H.
Qed.

(** A row is not the JSON text of itself in an array. *)
Lemma flatten_not_own_text (x : json) k :
  flatten x "" "." <> [(k, JStr (dumps (JArr [x])))].
Proof.
  intros E.
  assert (Hin : In (k, JStr (dumps (JArr [x]))) (flatten x "" "."))
    by (rewrite E; now left).
  apply cell_text_bound in Hin.
  rewrite dumps_singleton_array_length in Hin. lia.
Qed.

Lemma single_array_not_fallback k (l : list json) :
  [(k, array_rows l)] <> fallback [(k, JArr l)].
Proof.
  unfold fallback, array_rows. rewrite flatten_object.
  cbn [fold_left]. unfold flatten_item, new_key. cbn [dict_set].
  intros E. inversion E as [[Hk Hrows]]. clear E.
  destruct (forallb is_dict l).
  - destruct l as [|x [|y l]]; try discriminate.
    simpl in Hrows. inversion Hrows as [Hx].
    now apply flatten_not_own_text in Hx.
  - destruct l as [|x [|y l]]; discriminate.
Qed.

Lemma fallback_only_when_nothing_else (kvs : dict json) :
  NoDup (keys kvs) ->
  with_summary kvs <> [] -> with_summary kvs <> fallback kvs.
Proof.
  intros Hnd Hne E.
  rewrite with_summary_distinct in E by exact Hnd.
  destruct (remaining_of kvs) as [|kv rem] eqn:Hrem; cbn [truthy] in E.
  - destruct kvs as [|[k v] kvs]; [discriminate|].
    destruct v; simpl in Hrem; try discriminate.
    simpl in E. unfold fallback in E.
    assert (Hrest : array_sheets kvs = []) by now inversion E.
    assert (Hkvs : kvs = []) by now apply no_pairs_iff.
    subst kvs. now apply single_array_not_fallback in E.
  - assert (Hin : In "Summary" (keys (fallback kvs))).
    { rewrite <- E. apply in_keys_dict_set. now left. }
    destruct Hin as [H|[]]. discriminate.
Qed.

(** C5: on an object with distinct keys, the [Sheet1] fallback is the
    result exactly when nothing else was produced, that is when there is
    no array-valued key and the remaining bucket is empty; [{}] gives
    [Sheet1] with one empty row, [{"a": 1, "b": 2}] gives [Summary]
    alone. *)
Theorem sheet1_fallback_iff_nothing_else (kvs : dict json) :
  NoDup (keys kvs) ->
  (make_sheets_from_obj (JObj kvs) = fallback kvs <-> with_summary kvs = [])
  /\ (with_summary kvs = []
      <-> count_array_keys kvs = 0 /\ snd (route float_repr kvs) = [])
  /\ make_sheets_from_obj (JObj []) = [("Sheet1", [[]])]
  /\ make_sheets_from_obj doc_ab
     = [("Summary", [[("a", JInt 1); ("b", JInt 2)]])]
  /\ dict_get (make_sheets_from_obj doc_ab) "Sheet1" = None.
Proof.
  intros Hnd. repeat split; try reflexivity.
  - rewrite make_sheets_object.
    destruct (with_summary kvs) as [|s0 sh] eqn:E; [reflexivity|].
    cbn [truthy negb]. intros H. exfalso.
    apply (fallback_only_when_nothing_else kvs Hnd); rewrite E;
      [discriminate|exact H].
  - intros E. rewrite make_sheets_object, E. reflexivity.
  - apply count_array_keys_zero. now apply with_summary_nil_iff.
  - rewrite route_distinct by exact Hnd. now apply with_summary_nil_iff.
  - intros [Hc Hr]. apply with_summary_nil_iff; [exact Hnd|].
    rewrite route_distinct in Hr by exact Hnd.
    split; [now apply count_array_keys_zero|exact Hr].
Qed.

End PlannerFallback.

(** ** Sheet names *)

Section SheetNames.

Lemma substring_prefix_length (n : nat) (s : string) :
  String.length (substring 0 n s) <= n.
Proof.
  revert s. induction n as [|n IH]; intros [|c s]; simpl; try lia.
  specialize (IH s). lia.
Qed.

Lemma substring_prefix_not_empty (n : nat) (s : string) :
  s <> "" -> substring 0 (S n) s <> "".
Proof. destruct s; simpl; [congruence|discriminate]. Qed.

(** A sanitized name has at most 31 characters and, the default being a
    name, at least one. *)
Lemma sanitize_sheet_name_bounds (name default : string) :
  default <> "" ->
  sanitize_sheet_name name default <> ""
  /\ String.length (sanitize_sheet_name name default) <= 31.
Proof.
  intros Hd. unfold sanitize_sheet_name. split.
  - apply substring_prefix_not_empty.
    destruct (strip (replace_invalid name)); [exact Hd|discriminate].
  - apply substring_prefix_length.
Qed.

Lemma append_inj_r (a b c : string) : a ++ b = a ++ c -> b = c.
Proof.
  induction a as [|x a IH]; simpl; intros H; [exact H|].
  inversion H. now apply IH.
Qed.

Lemma nat_repr_inj (i j : nat) : nat_repr i = nat_repr j -> i = j.
Proof.
  unfold nat_repr. intros H.
  apply DecimalNat.Unsigned.to_uint_inj.
  pose proof (NilEmpty.usu (Nat.to_uint i)) as Hi.
  pose proof (NilEmpty.usu (Nat.to_uint j)) as Hj.
  rewrite H in Hi. rewrite Hi in Hj. now inversion Hj.
Qed.

Lemma suffixed_inj (base : string) (i j : nat) :
  suffixed base i = suffixed base j -> i = j.
Proof.
  unfold suffixed. destruct (28 <? String.length base)%nat; intros H;
    apply append_inj_r in H; apply (append_inj_r "_") in H;
    now apply nat_repr_inj.
Qed.


Lemma name_in_iff (name : string) (names : list string) :
  name_in name names = true <-> In name names.
Proof.
  unfold name_in. rewrite existsb_exists. split.
  - intros (x & Hx & E). apply String.eqb_eq in E. now subst.
  - intros H. exists name. split; [exact H|apply String.eqb_refl].
Qed.

(** When the loop runs out of turns, every name it tried is taken. *)
Lemma free_name_none (fuel : nat) (names : list string) (base : string) :
  forall name i,
    free_name fuel names base name i = None ->
    forall j, i <= j < i + fuel -> In (suffixed base j) names.
Proof.
  induction fuel as [|fuel IH]; intros name i H j Hj; [lia|].
  simpl in H. destruct (name_in name names); [|discriminate].
  destruct (Nat.eq_dec j i) as [->|Hne].
  - destruct fuel as [|fuel']; simpl in H.
    + destruct (name_in (suffixed base i) names) eqn:E; [|discriminate].
      now apply name_in_iff.
    + destruct (name_in (suffixed base i) names) eqn:E; [|discriminate].
      now apply name_in_iff.
  - apply (IH _ _ H). lia.
Qed.

(** The loop ends: the suffixed names are distinct and the workbook
    holds finitely many. *)
Lemma free_name_ends (names : list string) (base name : string) (i : nat) :
  exists name',
    free_name (S (List.length names)) names base name i = Some name'.
Proof.
  destruct (free_name (S (List.length names)) names base name i)
    as [name'|] eqn:E; [now exists name'|].
  exfalso.
  pose proof (free_name_none _ _ _ _ _ E) as Hall.
  assert (Hincl : incl (map (suffixed base)
                          (seq i (S (List.length names)))) names).
  { intros x Hx. apply in_map_iff in Hx. destruct Hx as (j & <- & Hj).
    apply in_seq in Hj. apply Hall. lia. }
  assert (Hnd : NoDup (map (suffixed base) (seq i (S (List.length names))))).
  { apply Injective_map_NoDup; [|apply seq_NoDup].
    intros a b. apply suffixed_inj. }
  pose proof (NoDup_incl_length Hnd Hincl) as Hlen.
  rewrite length_map, length_seq in Hlen. lia.
Qed.

(** The name the loop settles on is free, and is the sanitized name or
    one of its suffixed forms. *)
Lemma free_name_some (fuel : nat) (names : list string) (base : string) :
  forall name i name',
    free_name fuel names base name i = Some name' ->
    ~ In name' names /\ (name' = name \/ exists j, name' = suffixed base j).
Proof.
  induction fuel as [|fuel IH]; intros name i name' H; simpl in H.
  - destruct (name_in name names) eqn:E; [discriminate|].
    inversion H; subst. split; [|now left].
    intros Hin. apply name_in_iff in Hin. congruence.
  - destruct (name_in name names) eqn:E.
    + destruct (IH _ _ _ H) as [Hfree Hform]. split; [exact Hfree|].
      right. destruct Hform as [->|Hj]; [now exists i|exact Hj].
    + inversion H; subst. split; [|now left].
      intros Hin. apply name_in_iff in Hin. congruence.
Qed.





End SheetNames.

(** ** The examples of the specification, and the inputs on which the code
    and the specification part *)

Section Examples.

#[local] Abbreviation make_sheets := (make_sheets_from_obj no_float_repr).

Ltac distinct_keys :=
  repeat (constructor; [simpl; intuition discriminate|]); constructor.

(** C1, as stated, fails on [{"tags": [1, "x", {"a": 1}]}]: the scalars
    1 and x are held as their JSON text, not verbatim. *)
Lemma mixed_array_scalars_not_verbatim :
  dict_get (make_sheets doc_tags) "tags"
  = Some [[("value", JStr "1")];
          [("value", JStr (String quote ("x" ++ String quote "")))];
          [("value", JStr (dumps no_float_repr (JObj [("a", JInt 1)])))]]
  /\ dict_get (make_sheets doc_tags) "tags"
     <> Some (map (wrap_as_specified no_float_repr)
                [JInt 1; JStr "x"; JObj [("a", JInt 1)]]).
Proof. split; [reflexivity|]. vm_compute. discriminate. Qed.

Lemma mixed_array_rows_serialized_witness :
  NoDup (keys (members (@doc_tags no_float)))
  /\ dict_get (make_sheets doc_tags) "tags"
     = Some [[("value", JStr "1")];
             [("value", JStr (String quote ("x" ++ String quote "")))];
             [("value", JStr (dumps no_float_repr (JObj [("a", JInt 1)])))]].
Proof.
  split; [distinct_keys|].
  apply (mixed_array_rows_serialized no_float_repr
           (members doc_tags) "tags"
           [JInt 1; JStr "x"; JObj [("a", JInt 1)]]).
  - distinct_keys.
  - left; reflexivity.
  - reflexivity.
  - discriminate.
Defined.

(** C2, on [{"Summary": [{"x": 1}], "name": "demo"}]: the planner
    returns one sheet, [Summary], holding the summary row; the sheet of
    the array-valued key [Summary] has been written over, so there is
    not one sheet per array-valued key plus the summary. *)
Theorem summary_overwrites_array_sheet :
  make_sheets doc_summary_key = [("Summary", [[("name", JStr "demo")]])]
  /\ count_array_keys (members (@doc_summary_key no_float)) = 1
  /\ List.length (make_sheets doc_summary_key) = 1.
Proof. repeat split. Qed.

(** C10, on [{"Summary": [], "a": 1}]: the sheet named after the key
    [Summary], whose array is empty, holds the summary row and not zero
    rows. *)
Theorem empty_array_summary_key_has_row :
  make_sheets doc_summary_empty = [("Summary", [[("a", JInt 1)]])]
  /\ dict_get (make_sheets doc_summary_empty) "Summary" <> Some [].
Proof. split; [reflexivity|]. vm_compute. discriminate. Qed.

(** C9, on the object of 101 keys that agree on their first 31
    characters, written to a workbook whose first sheet is titled
    [Sheet]: the 101st title is the 28-character base with the suffix
    [_100], 32 characters. *)
Theorem hundredth_suffix_has_32_chars :
  exists titles,
    sheet_titles "Sheet" (make_sheets doc_long_keys) = Some titles
    /\ List.length titles = 101
    /\ nth 100 titles "" = "aaaaaaaaaaaaaaaaaaaaaaaaaaaa_100"
    /\ String.length (nth 100 titles "") = 32.
Proof.
  destruct (sheet_titles "Sheet" (make_sheets doc_long_keys))
    as [titles|] eqn:E; [|vm_compute in E; discriminate].
  exists titles. split; [reflexivity|].
  vm_compute in E. inversion E; subst titles. repeat split.
Qed.

Lemma sheet1_fallback_iff_nothing_else_witness :
  NoDup (keys (members (@doc_ab no_float)))
  /\ (make_sheets doc_ab = fallback no_float_repr (members doc_ab)
      <-> with_summary no_float_repr (members doc_ab) = []).
Proof.
  split; [distinct_keys|].
  apply (sheet1_fallback_iff_nothing_else no_float_repr (members doc_ab)).
  distinct_keys.
Defined.

Lemma top_level_scalar_one_cell_witness :
  is_scalar (@JStr no_float "hello") = true
  /\ make_sheets (JStr "hello")
     = [("Sheet1",
         [[("value", JStr (String quote ("hello" ++ String quote "")))]])].
Proof.
  split; [reflexivity|].
  apply (top_level_scalar_one_cell no_float_repr (JStr "hello")).
  reflexivity.
Defined.

Lemma flatten_non_object_witness :
  is_dict (@JInt no_float 3) = false
  /\ flatten no_float_repr (JInt 3) "" "." = [("", JInt 3)].
Proof.
  split; [reflexivity|].
  apply (flatten_non_object no_float_repr (JInt 3) "" "."). reflexivity.
Defined.

End Examples.


(** * Further properties of the code *)

(** ** The flattener *)

Section FlattenerMore.

Context {float : Type}.
Variable float_repr : float -> string.

#[local] Abbreviation json := (json float).
#[local] Abbreviation flatten := (flatten float_repr).
#[local] Abbreviation dumps := (dumps float_repr).
#[local] Abbreviation flatten_item := (flatten_item float_repr).

Lemma append_assoc (a b c : string) : (a ++ b) ++ c = a ++ b ++ c.
Proof. induction a as [|x a IH]; simpl; [reflexivity|now rewrite IH]. Qed.

Lemma new_key_prefixed (p sep k : string) :
  p <> "" -> new_key p sep k = p ++ sep ++ k.
Proof. destruct p; [congruence|reflexivity]. Qed.

Lemma new_key_not_empty (p sep k : string) : p <> "" -> new_key p sep k <> "".
Proof. destruct p; [congruence|discriminate]. Qed.

(** X1: the row of an object holds no container: every cell of
    [flatten(obj)] is a scalar or a string, never a dict or a list. *)
Theorem flatten_cells_not_containers (kvs : dict json) (p sep k : string)
        (c : json) :
  In (k, c) (flatten (JObj kvs) p sep) ->
  is_dict c = false /\ is_list c = false.
Proof.
  enough (H : forall v : json,
             is_dict v = true ->
             forall p sep k c, In (k, c) (flatten v p sep) ->
                               is_dict c = false /\ is_list c = false)
    by now apply H.
  clear. intros v.
  induction v as [|b|z|f|s|l Hl|d Hd] using json_nested_ind;
    try discriminate.
  intros _ p sep k c Hin.
  rewrite flatten_object in Hin. apply in_flatten_loop in Hin.
  destruct Hin as [[]|(k0 & v0 & Hmem & Hcase)].
  destruct Hcase as [[Hv Hc]|[[_ Hc]|(Hv1 & Hv2 & Hc)]].
  - rewrite Forall_forall in Hd. exact (Hd _ Hmem Hv _ _ _ _ Hc).
  - inversion Hc; subst. now split.
  - inversion Hc; subst. now split.
Qed.

(** X2: under a prefix that is not empty, every key of the row of an
    object starts with the prefix and the separator. *)
Theorem flatten_keys_carry_prefix (kvs : dict json) (p sep k : string)
        (c : json) :
  p <> "" ->
  In (k, c) (flatten (JObj kvs) p sep) ->
  exists rest, k = p ++ sep ++ rest.
Proof.
  enough (H : forall v : json,
             is_dict v = true ->
             forall p k c, p <> "" -> In (k, c) (flatten v p sep) ->
                           exists rest, k = p ++ sep ++ rest)
    by (intros Hp Hin; now apply (H (JObj kvs) eq_refl p k c)).
  clear. intros v.
  induction v as [|b|z|f|s|l Hl|d Hd] using json_nested_ind;
    try discriminate.
  intros _ p k c Hp Hin.
  rewrite flatten_object in Hin. apply in_flatten_loop in Hin.
  destruct Hin as [[]|(k0 & v0 & Hmem & Hcase)].
  rewrite new_key_prefixed in Hcase by exact Hp.
  destruct Hcase as [[Hv Hc]|[[_ Hc]|(_ & _ & Hc)]].
  - rewrite Forall_forall in Hd.
    destruct (Hd _ Hmem Hv (p ++ sep ++ k0) k c) as [rest ->];
      [destruct p; [congruence|discriminate]|exact Hc|].
    exists (k0 ++ sep ++ rest). now rewrite <- !append_assoc.
  - inversion Hc; subst. now exists k0.
  - inversion Hc; subst. now exists k0.
Qed.

Lemma flatten_loop_flat sep (kvs : dict json) : forall items,
  NoDup (keys kvs) ->
  (forall k, In k (keys kvs) -> ~ In k (keys items)) ->
  (forall k v, In (k, v) kvs -> is_dict v = false) ->
  fold_left (flatten_item "" sep) kvs items
  = (items
     ++ map (fun kv => (fst kv, if is_list (snd kv)
                                then JStr (dumps (snd kv)) else snd kv))
            kvs)%list.
Proof.
  induction kvs as [|[k v] kvs IH]; intros items Hnd Hfresh Hflat.
  - simpl. now rewrite app_nil_r.
  - simpl in Hnd. inversion Hnd as [|? ? Hk Hnd']; subst.
    cbn [fold_left map fst snd].
    assert (Hstep : flatten_item "" sep items (k, v)
                    = (items ++ [(k, if is_list v then JStr (dumps v)
                                     else v)])%list).
    { unfold flatten_item, new_key.
      assert (Hv : is_dict v = false) by (apply (Hflat k); now left).
      rewrite <- dict_set_fresh by (apply Hfresh; now left).
      destruct v; try reflexivity; discriminate. }
    rewrite Hstep, IH; [now rewrite <- app_assoc|exact Hnd'| |].
    + intros k' Hk'. unfold keys. rewrite map_app, in_app_iff. simpl.
      intros [H|[H|[]]]; [|congruence].
      apply (Hfresh k'); [now right|exact H].
    + intros k' v' H. apply (Hflat k'). now right.
Qed.

(** X3: an object with distinct keys and no nested object is its own
    row, in the same order, but for the arrays, which are held as their
    JSON text. *)
Theorem flatten_flat_object (kvs : dict json) (sep : string) :
  NoDup (keys kvs) ->
  (forall k v, In (k, v) kvs -> is_dict v = false) ->
  flatten (JObj kvs) "" sep
  = map (fun kv => (fst kv, if is_list (snd kv)
                            then JStr (dumps (snd kv)) else snd kv))
        kvs.
Proof.
  intros Hnd Hflat. rewrite flatten_object.
  now rewrite flatten_loop_flat by auto.
Qed.

End FlattenerMore.

(** ** The sheet planner *)

Section PlannerMore.

Context {float : Type}.
Variable float_repr : float -> string.

#[local] Abbreviation json := (json float).
#[local] Abbreviation flatten := (flatten float_repr).
#[local] Abbreviation dumps := (dumps float_repr).
#[local] Abbreviation make_sheets_from_obj := (make_sheets_from_obj float_repr).
#[local] Abbreviation with_summary := (with_summary float_repr).
#[local] Abbreviation array_sheets := (array_sheets float_repr).
#[local] Abbreviation array_rows := (array_rows float_repr).

(** X4: for a key [k] other than [Summary] whose array holds objects
    only, the sheet [k] holds the flattened elements, one row each, in
    order. *)
Theorem array_of_objects_rows (kvs : dict json) k l :
  NoDup (keys kvs) ->
  In (k, JArr l) kvs ->
  forallb is_dict l = true ->
  k <> "Summary" ->
  dict_get (make_sheets_from_obj (JObj kvs)) k
  = Some (map (fun i => flatten i "" ".") l).
Proof.
  intros Hnd Hin Hall Hk.
  rewrite (array_key_sheet float_repr kvs k l Hnd Hin Hk).
  unfold array_rows. now rewrite Hall.
Qed.

(** X5: the sheet of an array-valued key other than [Summary] has as
    many rows as the array has elements. *)
Theorem array_sheet_row_count (kvs : dict json) k l :
  NoDup (keys kvs) ->
  In (k, JArr l) kvs ->
  k <> "Summary" ->
  exists rows,
    dict_get (make_sheets_from_obj (JObj kvs)) k = Some rows
    /\ List.length rows = List.length l.
Proof.
  intros Hnd Hin Hk. exists (array_rows l). split.
  - now apply array_key_sheet.
  - unfold array_rows. destruct (forallb is_dict l); apply length_map.
Qed.

Lemma route_sheet_keys (kvs : dict json) : forall sh remaining k,
  In k (keys (fst (fold_left (route_step float_repr) kvs (sh, remaining)))) ->
  In k (keys sh) \/ exists l, In (k, JArr l) kvs.
Proof.
  induction kvs as [|[k0 v0] kvs IH]; intros sh remaining k Hin;
    [now left|].
  cbn [fold_left] in Hin.
  destruct (is_list v0) eqn:Hv.
  - destruct v0; try discriminate.
    rewrite route_step_array in Hin. apply IH in Hin.
    destruct Hin as [Hin|[l' Hin]].
    + apply in_keys_dict_set in Hin. destruct Hin as [->|Hin]; [|now left].
      right. exists l. now left.
    + right. exists l'. now right.
  - rewrite route_step_other in Hin by exact Hv. apply IH in Hin.
    destruct Hin as [Hin|[l' Hin]]; [now left|].
    right. exists l'. now right.
Qed.

(** X6: a sheet of the plan is named [Sheet1], [Summary], or after a
    top-level key whose value is an array; a key with any other value
    names no sheet of its own. *)
Theorem sheet_names_origin (obj : json) (k : string) :
  In k (keys (make_sheets_from_obj obj)) ->
  k = "Sheet1" \/ k = "Summary"
  \/ exists l, In (k, JArr l) (members obj).
Proof.
  destruct obj as [|b|z|f|s|l|d];
    try (intros [<-|[]]; now left).
  rewrite make_sheets_object. intros Hin.
  assert (Hws : forall k', In k' (keys (with_summary d)) ->
                k' = "Summary" \/ exists l, In (k', JArr l) d).
  { intros k' Hk'. unfold with_summary in Hk'.
    assert (Hr : In k' (keys (fst (route float_repr d))) ->
                 False \/ exists l, In (k', JArr l) d)
      by apply (route_sheet_keys d [] [] k').
    destruct (route float_repr d) as [sh remaining].
    simpl in Hr. destruct (truthy remaining).
    - apply in_keys_dict_set in Hk'. destruct Hk' as [->|Hk']; [now left|].
      destruct (Hr Hk') as [[]|H]. now right.
    - destruct (Hr Hk') as [[]|H]. now right. }
  destruct (with_summary d) as [|s0 sh] eqn:E.
  - destruct Hin as [<-|[]]. now left.
  - cbn [truthy negb] in Hin. right. now apply Hws.
Qed.

Lemma remaining_of_no_array (kvs : dict json) :
  (forall k v, In (k, v) kvs -> is_list v = false) ->
  remaining_of kvs = kvs /\ array_sheets kvs = [].
Proof.
  induction kvs as [|[k v] kvs IH]; intros H; [now split|].
  assert (Hv : is_list v = false) by (apply (H k); now left).
  destruct IH as [IH1 IH2]; [intros k' v' H'; apply (H k'); now right|].
  unfold remaining_of in *. simpl. rewrite Hv. simpl. rewrite IH1.
  split; [reflexivity|]. destruct v; try exact IH2; discriminate.
Qed.

(** X7: an object with distinct keys, at least one key and no
    array-valued key gives the single sheet [Summary], whose one row is
    the whole object flattened. *)
Theorem object_without_arrays (kvs : dict json) :
  NoDup (keys kvs) ->
  kvs <> [] ->
  (forall k v, In (k, v) kvs -> is_list v = false) ->
  make_sheets_from_obj (JObj kvs)
  = [("Summary", [flatten (JObj kvs) "" "."])].
Proof.
  intros Hnd Hne Hno.
  rewrite make_sheets_object, with_summary_distinct by exact Hnd.
  destruct (remaining_of_no_array kvs Hno) as [-> ->].
  destruct kvs; [contradiction|reflexivity].
Qed.

Lemma keys_array_sheets (kvs : dict json) :
  keys (array_sheets kvs) = keys (filter (fun kv => is_list (snd kv)) kvs).
Proof.
  induction kvs as [|[k v] kvs IH]; [reflexivity|].
  destruct v; simpl; try exact IH. now rewrite IH.
Qed.

(** X8: the order of the sheets of an object with distinct keys, none of
    its array-valued keys being named [Summary]: the array-valued keys
    in the order of the object, then [Summary] when some value is not
    an array. *)
Theorem sheet_order (kvs : dict json) :
  NoDup (keys kvs) ->
  kvs <> [] ->
  ~ In "Summary" (keys (filter (fun kv => is_list (snd kv)) kvs)) ->
  keys (make_sheets_from_obj (JObj kvs))
  = (keys (filter (fun kv => is_list (snd kv)) kvs)
     ++ if forallb (fun kv => is_list (snd kv)) kvs then []
        else ["Summary"])%list.
Proof.
  intros Hnd Hne Hfree. rewrite <- keys_array_sheets in *.
  rewrite make_sheets_object, with_summary_distinct by exact Hnd.
  assert (Hrem : truthy (remaining_of kvs)
                 = negb (forallb (fun kv => is_list (snd kv)) kvs)).
  { unfold remaining_of. clear.
    induction kvs as [|[k v] kvs IH]; [reflexivity|].
    simpl. destruct (is_list v); simpl; [exact IH|reflexivity]. }
  rewrite Hrem.
  destruct (forallb (fun kv => is_list (snd kv)) kvs) eqn:Hall; cbn [negb].
  - rewrite app_nil_r.
    destruct (array_sheets kvs) as [|s0 sh] eqn:E; [|reflexivity].
    exfalso. destruct kvs as [|[k v] kvs]; [now apply Hne|].
    simpl in Hall. apply andb_prop in Hall. destruct Hall as [Hv _].
    destruct v; try discriminate.
  - rewrite dict_set_fresh by exact Hfree.
    destruct (array_sheets kvs); unfold keys; simpl;
      [reflexivity|now rewrite map_app].
Qed.

End PlannerMore.

(** ** [sanitize_sheet_name] *)

Section SanitizeMore.

Lemma no_invalid_replace_invalid (s : string) : no_invalid (replace_invalid s).
Proof.
  unfold no_invalid, chars.
  induction s as [|ch s IH]; simpl; constructor; [|exact IH].
  destruct (is_invalid ch) eqn:E; [reflexivity|exact E].
Qed.

Lemma chars_lstrip (P : ascii -> Prop) (s : string) :
  Forall P (chars s) -> Forall P (chars (lstrip s)).
Proof.
  unfold chars. induction s as [|ch s IH]; simpl; intros H; [exact H|].
  destruct (is_space ch); [|exact H].
  apply IH. now inversion H.
Qed.

Lemma chars_rstrip (P : ascii -> Prop) (s : string) :
  Forall P (chars s) -> Forall P (chars (rstrip s)).
Proof.
  unfold chars. induction s as [|ch s IH]; simpl; intros H; [exact H|].
  inversion H as [|? ? Hch Hs]; subst. specialize (IH Hs).
  destruct (rstrip s) as [|c r].
  - destruct (is_space ch); simpl; [constructor|now constructor].
  - simpl. now constructor.
Qed.

Lemma chars_substring_prefix (P : ascii -> Prop) (n : nat) (s : string) :
  Forall P (chars s) -> Forall P (chars (substring 0 n s)).
Proof.
  unfold chars. revert s.
  induction n as [|n IH]; intros [|ch s] H; simpl; try constructor.
  - now inversion H.
  - apply IH. now inversion H.
Qed.

(** X9: with a default that is a valid name, the sanitized name is not
    empty, has at most 31 characters and holds none of the characters
    [\ / * ? : [ ]]. *)
Theorem sanitize_sheet_name_valid (name default : string) :
  default <> "" ->
  no_invalid default ->
  sanitize_sheet_name name default <> ""
  /\ String.length (sanitize_sheet_name name default) <= 31
  /\ no_invalid (sanitize_sheet_name name default).
Proof.
  intros Hd Hv.
  destruct (sanitize_sheet_name_bounds name default Hd) as [H1 H2].
  repeat split; try assumption.
  unfold sanitize_sheet_name, no_invalid.
  apply chars_substring_prefix.
  assert (Hs : Forall (fun ch => is_invalid ch = false)
                 (chars (strip (replace_invalid name)))).
  { unfold strip. apply chars_rstrip, chars_lstrip.
    apply no_invalid_replace_invalid. }
  destruct (strip (replace_invalid name)); [exact Hv|exact Hs].
Qed.

Lemma replace_invalid_valid (s : string) :
  no_invalid s -> replace_invalid s = s.
Proof.
  unfold no_invalid, chars.
  induction s as [|ch s IH]; simpl; intros H; [reflexivity|].
  inversion H as [|? ? Hch Hs]; subst. rewrite Hch, IH by exact Hs.
  reflexivity.
Qed.

Lemma rstrip_stripped (s : string) (d : ascii) :
  s <> "" -> is_space (last (chars s) d) = false -> rstrip s = s.
Proof.
  unfold chars. induction s as [|ch s IH]; [congruence|].
  intros _ Hlast. simpl. destruct s as [|c s'].
  - simpl in *. now rewrite Hlast.
  - rewrite IH; [reflexivity|discriminate|exact Hlast].
Qed.

Lemma substring_prefix_all (n : nat) (s : string) :
  String.length s <= n -> substring 0 n s = s.
Proof.
  revert s. induction n as [|n IH]; intros [|ch s] H; simpl in *;
    try reflexivity; try lia.
  rewrite IH by lia. reflexivity.
Qed.

(** X10: a name that is already valid (not empty, at most 31 characters,
    none of the seven characters, no white space at either end) is left
    as it is. *)
Theorem sanitize_sheet_name_keeps_valid (s default : string) :
  s <> "" ->
  no_invalid s ->
  stripped s ->
  String.length s <= 31 ->
  sanitize_sheet_name s default = s.
Proof.
  intros Hne Hv Hs Hlen. unfold sanitize_sheet_name.
  rewrite replace_invalid_valid by exact Hv.
  assert (E : strip s = s).
  { unfold strip. destruct s as [|ch s']; [congruence|].
    unfold stripped in Hs. simpl in Hs. destruct Hs as [Hfirst Hlast].
    assert (El : lstrip (String ch s') = String ch s')
      by (simpl; now rewrite Hfirst).
    rewrite El. apply (rstrip_stripped _ ch); [discriminate|exact Hlast]. }
  rewrite E. destruct s as [|ch s']; [congruence|].
  now apply substring_prefix_all.
Qed.

End SanitizeMore.

(** ** The name loop and the titles of a workbook *)

Section TitlesMore.

Lemma free_name_mono (fuel : nat) (names : list string) (base : string) :
  forall name i name' fuel',
    free_name fuel names base name i = Some name' ->
    fuel <= fuel' ->
    free_name fuel' names base name i = Some name'.
Proof.
  induction fuel as [|fuel IH]; intros name i name' fuel' H Hle;
    simpl in H.
  - destruct (name_in name names) eqn:E; [discriminate|].
    destruct fuel'; simpl; now rewrite E.
  - destruct fuel' as [|fuel']; [lia|]. simpl.
    destruct (name_in name names); [|exact H].
    apply (IH _ _ _ _ H). lia.
Qed.

Lemma free_name_ends_above (fuel : nat) (names : list string)
      (base name : string) (i : nat) :
  List.length names < fuel ->
  exists name', free_name fuel names base name i = Some name'.
Proof.
  intros Hfuel.
  destruct (free_name_ends names base name i) as [name' E].
  exists name'. apply (free_name_mono _ _ _ _ _ _ _ E). lia.
Qed.

(** X11: the name loop ends within one turn more than the workbook has
    sheets; the name it gives is not in the workbook, is the name it
    started from when that one is free, and does not depend on the
    bound on the turns. *)
Theorem name_loop_ends_on_free_name (fuel : nat) (names : list string)
        (base name : string) (i : nat) :
  List.length names < fuel ->
  exists name',
    free_name fuel names base name i = Some name'
    /\ ~ In name' names
    /\ (~ In name names -> name' = name)
    /\ (forall fuel', List.length names < fuel' ->
                      free_name fuel' names base name i = Some name').
Proof.
  intros Hfuel.
  destruct (free_name_ends_above fuel names base name i Hfuel) as [name' E].
  exists name'. split; [exact E|].
  pose proof (free_name_some _ _ _ _ _ _ E) as [Hfree _].
  repeat split; try exact Hfree.
  - intros Hout. destruct fuel; simpl in E.
    + destruct (name_in name names) eqn:En; [discriminate|congruence].
    + destruct (name_in name names) eqn:En; [|congruence].
      apply name_in_iff in En. contradiction.
  - intros fuel' Hfuel'.
    destruct (free_name_ends_above fuel' names base name i Hfuel')
      as [name'' E'].
    rewrite E'. f_equal.
    pose proof (free_name_mono _ _ _ _ _ _ (Nat.max fuel fuel') E
                  (Nat.le_max_l _ _)) as H1.
    pose proof (free_name_mono _ _ _ _ _ _ (Nat.max fuel fuel') E'
                  (Nat.le_max_r _ _)) as H2.
    congruence.
Qed.











End TitlesMore.

Section TitlesPlain.




End TitlesPlain.

(** ** Headers and tables *)

Section TablesMore.

Context {float : Type}.

#[local] Abbreviation json := (json float).
#[local] Abbreviation row := (row float).

Lemma name_in_app (k : string) (a b : list string) :
  name_in k (a ++ b) = name_in k a || name_in k b.
Proof. apply existsb_app. Qed.

Lemma name_in_false (k : string) (l : list string) :
  name_in k l = false <-> ~ In k l.
Proof.
  rewrite <- name_in_iff. destruct (name_in k l); split; congruence.
Qed.

Lemma collect_headers_flat (rows : list row) : forall hs,
  fold_left (fun headers r => fold_left add_header (keys r) headers) rows hs
  = fold_left add_header (List.concat (map keys rows)) hs.
Proof.
  induction rows as [|r rows IH]; intros hs; [reflexivity|].
  simpl. now rewrite fold_left_app, IH.
Qed.

Lemma in_add_header (hs : list string) (k h : string) :
  In h (add_header hs k) <-> In h hs \/ h = k.
Proof.
  unfold add_header. destruct (name_in k hs) eqn:E.
  - apply name_in_iff in E. split; [now left|].
    intros [H| ->]; assumption.
  - rewrite in_app_iff. simpl. intuition.
Qed.

Lemma NoDup_add_header (hs : list string) (k : string) :
  NoDup hs -> NoDup (add_header hs k).
Proof.
  intros Hnd. unfold add_header. destruct (name_in k hs) eqn:E; [exact Hnd|].
  apply name_in_false in E.
  apply NoDup_app; [exact Hnd|repeat constructor; intros []|].
  intros x Hx [<-|[]]. contradiction.
Qed.

Lemma header_fold_spec (ks : list string) : forall hs,
  (NoDup hs -> NoDup (fold_left add_header ks hs))
  /\ forall h, In h (fold_left add_header ks hs) <-> In h hs \/ In h ks.
Proof.
  induction ks as [|k ks IH]; intros hs; simpl.
  - split; [auto|]. intros h. tauto.
  - destruct (IH (add_header hs k)) as [IH1 IH2]. split.
    + intros Hnd. now apply IH1, NoDup_add_header.
    + intros h. rewrite IH2, in_add_header. intuition.
Qed.

Lemma collect_headers_spec (rows : list row) :
  NoDup (collect_headers rows)
  /\ forall h, In h (collect_headers rows)
               <-> exists r, In r rows /\ In h (keys r).
Proof.
  unfold collect_headers. rewrite collect_headers_flat.
  destruct (header_fold_spec (List.concat (map keys rows)) []) as [H1 H2].
  split; [apply H1; constructor|].
  intros h. rewrite H2, in_concat. split.
  - intros [[]|(ks & Hks & Hh)]. apply in_map_iff in Hks.
    destruct Hks as (r & <- & Hr). now exists r.
  - intros (r & Hr & Hh). right. exists (keys r). split; [|exact Hh].
    now apply in_map.
Qed.

(** X15: the headers of a sheet are pairwise distinct and are exactly the
    keys that some row of the sheet has. *)
Theorem headers_distinct_and_complete (rows : list row) :
  NoDup (collect_headers rows)
  /\ forall h, In h (collect_headers rows)
               <-> exists r, In r rows /\ In h (keys r).
Proof. apply collect_headers_spec. Qed.

(** The loop started from [hs] adds to [hs] what the loop started from
    nothing finds, less what [hs] has. *)
Lemma header_fold_from (ks hs : list string) :
  fold_left add_header ks hs
  = (hs ++ filter (fun k => negb (name_in k hs))
                  (fold_left add_header ks []))%list.
Proof.
  induction ks as [|k ks IH] using rev_ind.
  - simpl. now rewrite app_nil_r.
  - rewrite !fold_left_app. cbn [fold_left]. rewrite IH.
    set (D := fold_left add_header ks []).
    unfold add_header.
    rewrite name_in_app.
    destruct (name_in k D) eqn:ED.
    + destruct (name_in k hs) eqn:Eh; cbn [orb]; [reflexivity|].
      assert (E : name_in k (filter (fun k => negb (name_in k hs)) D) = true).
      { apply name_in_iff, filter_In. split; [now apply name_in_iff|].
        now rewrite Eh. }
      now rewrite E.
    + rewrite filter_app. cbn [filter].
      assert (E : name_in k (filter (fun k => negb (name_in k hs)) D) = false).
      { apply name_in_false. intros H. apply filter_In in H.
        destruct H as [H _]. apply name_in_iff in H. congruence. }
      rewrite E. destruct (name_in k hs); cbn [orb negb].
      * now rewrite app_nil_r.
      * now rewrite <- app_assoc.
Qed.

(** X16: first-seen order. The headers of rows followed by more rows are
    the headers of the first rows, then those of the later rows that are
    new, in the order the later rows give them. *)
Theorem headers_first_seen_order (rows1 rows2 : list row) :
  collect_headers (rows1 ++ rows2)
  = (collect_headers rows1
     ++ filter (fun h => negb (name_in h (collect_headers rows1)))
               (collect_headers rows2))%list.
Proof.
  unfold collect_headers.
  rewrite fold_left_app, (collect_headers_flat rows2), header_fold_from.
  now rewrite <- (collect_headers_flat rows2).
Qed.

(** X17: the table loses no cell. Under the headers of its sheet a row
    gives one cell per header; every cell of the row is in the column of
    its key; the column of a key the row does not have holds the empty
    string. *)
Theorem table_holds_every_cell (rows : list row) (r : row) :
  In r rows ->
  NoDup (keys r) ->
  List.length (row_cells (collect_headers rows) r)
  = List.length (collect_headers rows)
  /\ (forall k v, In (k, v) r ->
        exists j, nth_error (collect_headers rows) j = Some k
                  /\ nth_error (row_cells (collect_headers rows) r) j
                     = Some v)
  /\ (forall j h, nth_error (collect_headers rows) j = Some h ->
        ~ In h (keys r) ->
        nth_error (row_cells (collect_headers rows) r) j = Some (JStr "")).
Proof.
  intros Hr Hnd. unfold row_cells. split; [apply length_map|]. split.
  - intros k v Hkv.
    assert (Hk : In k (collect_headers rows)).
    { apply collect_headers_spec. exists r. split; [exact Hr|].
      change k with (fst (k, v)). now apply in_map. }
    apply In_nth_error in Hk. destruct Hk as [j Hj]. exists j.
    split; [exact Hj|].
    rewrite nth_error_map, Hj. simpl. unfold get_default.
    now rewrite (dict_get_in r k v Hnd Hkv).
  - intros j h Hj Hout. rewrite nth_error_map, Hj. simpl.
    unfold get_default. apply dict_get_none in Hout. now rewrite Hout.
Qed.

End TablesMore.

(** ** The records of the combined CSV and the cells of a sheet *)

Section WritersMore.

Context {float : Type}.

#[local] Abbreviation json := (json float).
#[local] Abbreviation row := (row float).

Lemma writerow_each {A} (f : A -> list json) (l : list A) : forall w,
  fold_left (fun w r => (w ++ [f r])%list) l w = (w ++ map f l)%list.
Proof.
  induction l as [|x l IH]; intros w; simpl.
  - now rewrite app_nil_r.
  - now rewrite IH, <- app_assoc.
Qed.

Lemma csv_sheet_block (written : list (list json)) (first_sheet : bool)
      (sheet : string * list row) :
  csv_sheet (written, first_sheet) sheet
  = ((written ++ (if first_sheet then [] else [[]]) ++ csv_block sheet)%list,
     false).
Proof.
  destruct sheet as [name rows]. unfold csv_sheet, csv_block.
  destruct rows as [|r rows].
  - destruct first_sheet; simpl; [reflexivity|now rewrite <- app_assoc].
  - rewrite writerow_each.
    destruct first_sheet; simpl; rewrite <- !app_assoc; reflexivity.
Qed.

Lemma csv_later_sheets (sh : sheets float) : forall written,
  fold_left csv_sheet sh (written, false)
  = ((written ++ flat_map (fun sheet => [] :: csv_block sheet) sh)%list,
     false).
Proof.
  induction sh as [|sheet sh IH]; intros written.
  - simpl. now rewrite app_nil_r.
  - cbn [fold_left]. rewrite csv_sheet_block, IH. cbn [flat_map].
    f_equal. rewrite <- !app_assoc. reflexivity.
Qed.

Lemma separated_cons (b : list (list json)) (rest : list (list (list json))) :
  separated (b :: rest)
  = (b ++ flat_map (fun b' => [] :: b') rest)%list.
Proof.
  revert b. induction rest as [|b' rest IH]; intros b.
  - simpl. now rewrite app_nil_r.
  - change (separated (b :: b' :: rest))
      with (b ++ [] :: separated (b' :: rest))%list.
    now rewrite IH.
Qed.

(** X18: the records of the combined CSV are the blocks of the sheets, in
    the order of the plan, with one empty record between two blocks and
    none before the first or after the last; the block of a sheet is its
    label, followed, when the sheet has rows, by its header record and
    one record per row. *)
Theorem csv_records_are_separated_blocks (sh : sheets float) :
  write_combined_csv_fallback sh = separated (map csv_block sh).
Proof.
  unfold write_combined_csv_fallback.
  destruct sh as [|sheet sh]; [reflexivity|].
  cbn [fold_left map]. rewrite csv_sheet_block, csv_later_sheets.
  rewrite separated_cons. cbn [fst app]. f_equal.
  induction sh as [|sheet' sh IH]; [reflexivity|].
  cbn [flat_map map]. now rewrite IH.
Qed.



End WritersMore.

(** ** Instances *)

Section Instances.

#[local] Abbreviation make_sheets := (make_sheets_from_obj no_float_repr).

Ltac distinct :=
  repeat (constructor; [simpl; intuition discriminate|]); constructor.

(** [{"a": {"b": 1, "c": [2]}}], flattened under the prefix [p]. *)
Lemma flatten_cells_not_containers_witness :
  In ("p.a.b", @JInt no_float 1)
     (flatten no_float_repr
        (JObj [("a", JObj [("b", JInt 1); ("c", JArr [JInt 2])])]) "p" ".")
  /\ is_dict (@JInt no_float 1) = false
  /\ is_list (@JInt no_float 1) = false.
Proof.
  split; [left; reflexivity|].
  apply (flatten_cells_not_containers no_float_repr
           [("a", JObj [("b", JInt 1); ("c", JArr [JInt 2])])]
           "p" "." "p.a.b" (JInt 1)).
  left; reflexivity.
Defined.

Lemma flatten_keys_carry_prefix_witness :
  "p" <> ""
  /\ exists rest, "p.a.b" = "p" ++ "." ++ rest.
Proof.
  split; [discriminate|].
  apply (flatten_keys_carry_prefix no_float_repr
           [("a", JObj [("b", JInt 1); ("c", JArr [JInt 2])])]
           "p" "." "p.a.b" (JInt 1)).
  - discriminate.
  - left; reflexivity.
Defined.

Lemma flatten_flat_object_witness :
  NoDup (keys (members (@doc_ab no_float)))
  /\ flatten no_float_repr doc_ab "" "." = [("a", JInt 1); ("b", JInt 2)].
Proof.
  split; [distinct|].
  apply (flatten_flat_object no_float_repr (members doc_ab) ".").
  - distinct.
  - intros k v [H|[H|[]]]; inversion H; reflexivity.
Defined.

Lemma array_of_objects_rows_witness :
  NoDup (keys (members (@doc_items no_float)))
  /\ dict_get (make_sheets doc_items) "items" = Some [[("x", JInt 1)]].
Proof.
  split; [distinct|].
  apply (array_of_objects_rows no_float_repr (members doc_items) "items"
           [JObj [("x", JInt 1)]]).
  - distinct.
  - right; right; left; reflexivity.
  - reflexivity.
  - discriminate.
Defined.

Lemma array_sheet_row_count_witness :
  NoDup (keys (members (@doc_tags no_float)))
  /\ exists rows,
       dict_get (make_sheets doc_tags) "tags" = Some rows
       /\ List.length rows = 3.
Proof.
  split; [distinct|].
  apply (array_sheet_row_count no_float_repr (members doc_tags) "tags"
           [JInt 1; JStr "x"; JObj [("a", JInt 1)]]).
  - distinct.
  - left; reflexivity.
  - discriminate.
Defined.

Lemma sheet_names_origin_witness :
  In "items" (keys (make_sheets doc_items))
  /\ ("items" = "Sheet1" \/ "items" = "Summary"
      \/ exists l, In ("items", JArr l) (members (@doc_items no_float))).
Proof.
  split; [left; reflexivity|].
  apply (sheet_names_origin no_float_repr doc_items "items").
  left; reflexivity.
Defined.

Lemma object_without_arrays_witness :
  NoDup (keys (members (@doc_ab no_float)))
  /\ make_sheets doc_ab = [("Summary", [flatten no_float_repr doc_ab "" "."])].
Proof.
  split; [distinct|].
  apply (object_without_arrays no_float_repr (members doc_ab)).
  - distinct.
  - discriminate.
  - intros k v [H|[H|[]]]; inversion H; reflexivity.
Defined.

Lemma sheet_order_witness :
  NoDup (keys (members (@doc_items no_float)))
  /\ keys (make_sheets doc_items) = ["items"; "Summary"].
Proof.
  split; [distinct|].
  apply (sheet_order no_float_repr (members doc_items)).
  - distinct.
  - discriminate.
  - simpl. intuition discriminate.
Defined.

Lemma sanitize_sheet_name_valid_witness :
  "Sheet" <> ""
  /\ sanitize_sheet_name " a/b:c " "Sheet" <> ""
  /\ String.length (sanitize_sheet_name " a/b:c " "Sheet") <= 31
  /\ no_invalid (sanitize_sheet_name " a/b:c " "Sheet").
Proof.
  split; [discriminate|].
  apply (sanitize_sheet_name_valid " a/b:c " "Sheet").
  - discriminate.
  - repeat constructor.
Defined.

Lemma sanitize_sheet_name_keeps_valid_witness :
  String.length "users" <= 31
  /\ sanitize_sheet_name "users" "Sheet" = "users".
Proof.
  split; [simpl; lia|].
  apply (sanitize_sheet_name_keeps_valid "users" "Sheet").
  - discriminate.
  - repeat constructor.
  - split; reflexivity.
  - simpl; lia.
Defined.

Lemma name_loop_ends_on_free_name_witness :
  List.length ["a"; "a_1"] < 3
  /\ exists name',
       free_name 3 ["a"; "a_1"] "a" "a" 1 = Some name'
       /\ ~ In name' ["a"; "a_1"]
       /\ (~ In "a" ["a"; "a_1"] -> name' = "a")
       /\ (forall fuel', List.length ["a"; "a_1"] < fuel' ->
                         free_name fuel' ["a"; "a_1"] "a" "a" 1 = Some name').
Proof.
  split; [simpl; lia|].
  apply (name_loop_ends_on_free_name 3 ["a"; "a_1"] "a" "a" 1).
  simpl; lia.
Defined.



Lemma table_holds_every_cell_witness :
  NoDup (keys [("b", @JInt no_float 2)])
  /\ List.length
       (@row_cells no_float
          (@collect_headers no_float [[("a", JInt 1)]; [("b", JInt 2)]])
          [("b", JInt 2)])
     = 2.
Proof.
  split; [distinct|].
  apply (table_holds_every_cell
           [[("a", @JInt no_float 1)]; [("b", JInt 2)]] [("b", JInt 2)]).
  - right; left; reflexivity.
  - distinct.
Defined.

End Instances.
